(** * Campaign dispatch worker (workers/campaignWorker.js)

    A shallow embedding of the worker's claim engine, reviver, send loop
    and orchestrator, and the properties of its specification.

    Conventions of the embedding.
    - Timestamps ([Date] values) are milliseconds since the epoch, in [Z];
      [getCurrentBrazilTime] converts the zone of [DateTime.now()] and
      returns the same instant, so it is a clock read.
    - The [campaignDispatch] table is the list of its rows, in table order.
    - Every answer of the outside world (clock reads, the campaign row, the
      contact directory, the gateway, store faults) is an explicit input.
    - A JavaScript exception is the [Throw] case of [Result].
    - Strings are sequences of 8-bit code units.
    - A number is what the worker can observe of it: its truth value and
      the text [String(...)] gives for it. *)

From stdpp Require Import gmap strings list sorting.
From Stdlib Require Import ZArith Lia Ascii String.

Set Warnings "-register-all,-clear-no-such-hyp".
Local Open Scope Z_scope.
Local Open Scope string_scope.

(** ** JavaScript values and exceptions *)

Module Js.

(** A number as the worker sees it.  The worker never computes with the
    numbers of a payload or of a gateway answer: it tests them for truth
    (false for zero and NaN) and converts them to text ([String(n)], with
    the exponent notation and the fraction JavaScript prints). *)
Record JsNumber := mkNumber { num_truthy : bool; num_text : string }.

(** The values that flow through the worker: JSON values, [undefined], and
    the built-in functions reachable through [Object.prototype]. *)
Inductive JsVal :=
| JUndefined
| JNull
| JBool (b : bool)
| JNum (n : JsNumber)
| JStr (s : string)
| JArr (items : list JsVal)
| JObj (fields : list (string * JsVal))
| JFun (name : string).

(** An [Error] object: its [name] and its [message]. *)
Record JsError := mkError { ename : string; emessage : string }.

Inductive Result (A : Type) :=
| Return (a : A)
| Throw (e : JsError).
Arguments Return {A} a.
Arguments Throw {A} e.

Definition bind {A B} (r : Result A) (k : A -> Result B) : Result B :=
  match r with
  | Return a => k a
  | Throw e => Throw e
  end.

(** [new Error(msg)] and the [TypeError] of calling a missing method. *)
Definition Error (msg : string) : JsError := mkError "Error" msg.
Definition TypeError (msg : string) : JsError := mkError "TypeError" msg.

(** ToBoolean. *)
Definition truthy (v : JsVal) : bool :=
  match v with
  | JUndefined | JNull => false
  | JBool b => b
  | JNum n => num_truthy n
  | JStr s => negb (String.eqb s "")
  | JArr _ | JObj _ | JFun _ => true
  end.

(** [a || b] and [a ?? b]. *)
Definition or_else (a b : JsVal) : JsVal := if truthy a then a else b.
Definition nullish (v : JsVal) : bool :=
  match v with JUndefined | JNull => true | _ => false end.
Definition coalesce (a b : JsVal) : JsVal := if nullish a then b else a.

Definition join (sep : string) (l : list string) : string := String.concat sep l.

(** ToString: [String(v)], and the conversion [replace] applies to what its
    callback returns.  An array joins its elements with commas, [null] and
    [undefined] elements as empty strings. *)
Fixpoint ToString (v : JsVal) : string :=
  match v with
  | JUndefined => "undefined"
  | JNull => "null"
  | JBool true => "true"
  | JBool false => "false"
  | JNum n => num_text n
  | JStr s => s
  | JArr items =>
      join "," (List.map (fun x => match x with
                                   | JUndefined | JNull => ""
                                   | _ => ToString x
                                   end) items)
  | JObj _ => "[object Object]"
  | JFun name => "function " ++ name ++ "() { [native code] }"
  end.

(** [Error.prototype.toString]. *)
Definition error_toString (e : JsError) : string :=
  if String.eqb (emessage e) "" then ename e
  else if String.eqb (ename e) "" then emessage e
  else ename e ++ ": " ++ emessage e.

Fixpoint assoc (key : string) (fields : list (string * JsVal)) : option JsVal :=
  match fields with
  | [] => None
  | (k, v) :: rest => if String.eqb k key then Some v else assoc key rest
  end.

(** The properties every plain object inherits from [Object.prototype]. *)
Definition Object_prototype (key : string) : option JsVal :=
  if String.eqb key "constructor" then Some (JFun "Object")
  else if String.eqb key "__proto__" then Some (JObj [])
  else if existsb (String.eqb key)
            ["toString"; "toLocaleString"; "valueOf"; "hasOwnProperty";
             "isPrototypeOf"; "propertyIsEnumerable"; "__defineGetter__";
             "__defineSetter__"; "__lookupGetter__"; "__lookupSetter__"]
       then Some (JFun key)
  else None.

(** [obj[key]] on a plain object: own property first, then the prototype. *)
Definition obj_get (fields : list (string * JsVal)) (key : string) : JsVal :=
  match assoc key fields with
  | Some v => v
  | None => match Object_prototype key with
            | Some v => v
            | None => JUndefined
            end
  end.

(** [v?.key] for the property names the worker reads from parsed JSON
    ([type], [text], [status], [message], the media urls): none of them is
    a member of a string, number, boolean or array. *)
Definition opt_get (v : JsVal) (key : string) : JsVal :=
  match v with
  | JObj fields => obj_get fields key
  | _ => JUndefined
  end.

End Js.
Export Js.

(** ** Template rendering *)

(** [\s] and [\w] on 8-bit code units. *)
Definition is_space (c : ascii) : bool :=
  let n := nat_of_ascii c in
  ((9 <=? n) && (n <=? 13))%nat || (n =? 32)%nat || (n =? 160)%nat.

Definition is_word (c : ascii) : bool :=
  let n := nat_of_ascii c in
  (((48 <=? n) && (n <=? 57)) || ((65 <=? n) && (n <=? 90))
   || ((97 <=? n) && (n <=? 122)) || (n =? 95))%nat.

(** The longest prefix of characters satisfying [p], and the rest. *)
Fixpoint span (p : ascii -> bool) (s : string) : string * string :=
  match s with
  | String c rest =>
      if p c then let '(a, b) := span p rest in (String c a, b)
      else ("", s)
  | EmptyString => ("", "")
  end.

(** [s] without its prefix [pre], when it starts with it. *)
Fixpoint strip_prefix (pre s : string) : option string :=
  match pre, s with
  | EmptyString, _ => Some s
  | String a pre', String b s' =>
      if Ascii.eqb a b then strip_prefix pre' s' else None
  | String _ _, EmptyString => None
  end.

(** One match of [{{\s*(\w+)\s*}}] anchored at the start of [s]: the
    captured key and what follows the match.  The three classes [\s], [\w]
    and the closing brace are disjoint, so greedy matching never has to
    back off. *)
Definition match_placeholder (s : string) : option (string * string) :=
  match strip_prefix "{{" s with
  | None => None
  | Some s1 =>
      let '(_, s2) := span is_space s1 in
      let '(key, s3) := span is_word s2 in
      if String.eqb key "" then None
      else
        let '(_, s4) := span is_space s3 in
        match strip_prefix "}}" s4 with
        | Some rest => Some (key, rest)
        | None => None
        end
  end.

(** [text.replace(/{{\s*(\w+)\s*}}/g, f)]: leftmost matches, not
    overlapping, the replacement text not scanned again. *)
Fixpoint replace_all (fuel : nat) (f : string -> string) (s : string) : string :=
  match fuel with
  | O => s
  | S fuel' =>
      match match_placeholder s with
      | Some (key, rest) => f key ++ replace_all fuel' f rest
      | None =>
          match s with
          | String c rest => String c (replace_all fuel' f rest)
          | EmptyString => ""
          end
      end
  end.

Definition replace_placeholders (f : string -> string) (s : string) : string :=
  replace_all (S (String.length s)) f s.

(** [renderTemplate(text, contactData)]; [contactData] is a plain object.
    A truthy [text] that is not a string has no [replace] method. *)
Definition renderTemplate (text : JsVal) (contactData : list (string * JsVal))
  : Result string :=
  if negb (truthy text) then Return ""
  else match text with
       | JStr s =>
           Return (replace_placeholders
                     (fun key => ToString (coalesce (obj_get contactData key) (JStr "")))
                     s)
       | _ => Throw (TypeError "text.replace is not a function")
       end.

(** The row [segmentContact.findFirst] selects: [name], [email], [empresa],
    each a string or [null]. *)
Record ContactProfile := mkProfile {
  name : option string;
  email : option string;
  empresa : option string;
}.

Definition of_nullable (o : option string) : JsVal :=
  match o with Some s => JStr s | None => JNull end.

(** [contactData?.field]. *)
Definition profile_field (contactData : option ContactProfile)
    (field : ContactProfile -> option string) : JsVal :=
  match contactData with
  | Some p => of_nullable (field p)
  | None => JUndefined
  end.

(** The object literal [{ nome: contactData?.name, email: contactData?.email,
    empresa: contactData?.empresa }]. *)
Definition template_data (contactData : option ContactProfile)
  : list (string * JsVal) :=
  [("nome", profile_field contactData name);
   ("email", profile_field contactData email);
   ("empresa", profile_field contactData empresa)].

(** ** The dispatch table *)

Inductive DispatchStatus := pending | processing | sent | failed.

#[global] Instance DispatchStatus_eq_dec : EqDecision DispatchStatus.
Proof. solve_decision. Defined.

(** One row of [campaignDispatch].  [scheduledAt] and [error] are nullable.
    [updatedAt] is written only by the statements that name it. *)
Record Dispatch := mkDispatch {
  id : Z;
  campaignId : Z;
  sessionName : string;
  contact : string;
  messageOrder : Z;
  message : string;
  status : DispatchStatus;
  scheduledAt : option Z;
  error : option string;
  createdAt : Z;
  updatedAt : Z;
}.

Definition Store := list Dispatch.

Definition set_status (st : DispatchStatus) (d : Dispatch) : Dispatch :=
  mkDispatch (id d) (campaignId d) (sessionName d) (contact d) (messageOrder d)
    (message d) st (scheduledAt d) (error d) (createdAt d) (updatedAt d).

Definition set_error (e : option string) (d : Dispatch) : Dispatch :=
  mkDispatch (id d) (campaignId d) (sessionName d) (contact d) (messageOrder d)
    (message d) (status d) (scheduledAt d) e (createdAt d) (updatedAt d).

Definition set_updatedAt (t : Z) (d : Dispatch) : Dispatch :=
  mkDispatch (id d) (campaignId d) (sessionName d) (contact d) (messageOrder d)
    (message d) (status d) (scheduledAt d) (error d) (createdAt d) t.

Definition has_status (st : DispatchStatus) (d : Dispatch) : bool :=
  bool_decide (status d = st).

(** [OR: [{ scheduledAt: null }, { scheduledAt: { lte: now } }]]. *)
Definition ready (now : Z) (d : Dispatch) : bool :=
  match scheduledAt d with
  | None => true
  | Some t => (t <=? now)%Z
  end.

(** [updateMany({ where, data })]: the number of rows matched, and the table
    with [data] applied to exactly those rows. *)
Definition updateMany (where_ : Dispatch -> bool) (data : Dispatch -> Dispatch)
    (s : Store) : Z * Store :=
  (Z.of_nat (List.length (List.filter where_ s)),
   List.map (fun d => if where_ d then data d else d) s).

(** [update({ where: { id }, data })]: the row with that id rewritten, the
    record-not-found error of the store when there is none, or the error
    [fault] the store raises instead of writing. *)
Definition update (fault : option JsError) (i : Z) (data : Dispatch -> Dispatch)
    (s : Store) : Result Store :=
  match fault with
  | Some e => Throw e
  | None =>
      if existsb (fun d => (id d =? i)%Z) s
      then Return (List.map (fun d => if (id d =? i)%Z then data d else d) s)
      else Throw (mkError "PrismaClientKnownRequestError"
                    "Record to update not found.")
  end.

(** [orderBy: [{ contact: 'asc' }, { messageOrder: 'asc' }, { createdAt: 'asc' }]]:
    the strict lexicographic order on the three columns. *)
Definition key_lt (a b : Dispatch) : bool :=
  match String.compare (contact a) (contact b) with
  | Lt => true
  | Gt => false
  | Eq =>
      (messageOrder a <? messageOrder b)%Z
      || ((messageOrder a =? messageOrder b)%Z && (createdAt a <? createdAt b)%Z)
  end.

(** The least row of a list for [lt]; among equal rows, the one that comes
    first in the table. *)
Fixpoint first_by (lt : Dispatch -> Dispatch -> bool) (l : list Dispatch)
  : option Dispatch :=
  match l with
  | [] => None
  | d :: rest =>
      match first_by lt rest with
      | Some m => if lt m d then Some m else Some d
      | None => Some d
      end
  end.

(** [orderBy: { messageOrder: 'asc' }]. *)
Definition order_le (a b : Dispatch) : Prop := (messageOrder a <= messageOrder b)%Z.

#[global] Instance order_le_dec : RelDecision order_le.
Proof. intros a b. unfold order_le. apply _. Defined.

Definition findMany_by_messageOrder (where_ : Dispatch -> bool) (s : Store)
  : list Dispatch :=
  merge_sort order_le (List.filter where_ s).

(** ** Reviver *)

(** [{ status: 'processing', updatedAt: { lt: cutoff } }]. *)
Definition stuck (cutoff : Z) (d : Dispatch) : bool :=
  has_status processing d && (updatedAt d <? cutoff)%Z.

(** [reviveStuckProcessing()].  [Date_now] is the clock read, [fault] the
    error the store raises on [updateMany], if it does; the [catch] logs
    the message and the function returns normally. *)
Definition reviveStuckProcessing (PROCESSING_TTL_MS Date_now : Z)
    (fault : option JsError) (s : Store) : Store * Result unit :=
  let cutoff := (Date_now - PROCESSING_TTL_MS)%Z in
  match fault with
  | None =>
      let '(_, s') := updateMany (stuck cutoff) (set_status pending) s in
      (s', Return tt)
  | Some _ => (s, Return tt)
  end.

(** ** Claim engine *)

(** What [claimNextContactBatch] resolves to when it is not [null]. *)
Record Claim := mkClaim {
  claim_contact : string;
  claim_sessionName : string;
  contactData : option ContactProfile;
  batch : list Dispatch;
}.

(** The three clock reads of one claim attempt, in program order: [now]
    before the transaction, [claimTime] after [findFirst], and the value
    stamped into [updatedAt]. *)
Record ClaimClock := mkClock { now : Z; claimTime : Z; updTime : Z }.

Definition pending_ready (cid : Z) (now : Z) (d : Dispatch) : bool :=
  (campaignId d =? cid)%Z && has_status pending d && ready now d.

Definition same_group (cid : Z) (first d : Dispatch) : bool :=
  (campaignId d =? cid)%Z
  && String.eqb (contact d) (contact first)
  && String.eqb (sessionName d) (sessionName first).

(** Statement 1: [findFirst]. *)
Definition claim_find (cid now : Z) (s : Store) : option Dispatch :=
  first_by key_lt (List.filter (pending_ready cid now) s).

(** Statement 2: the conditional [updateMany]. *)
Definition claim_where (cid : Z) (first : Dispatch) (now : Z) (d : Dispatch) : bool :=
  same_group cid first d && has_status pending d && ready now d.

Definition claim_update (cid : Z) (first : Dispatch) (now stamp : Z) (s : Store)
  : Z * Store :=
  updateMany (claim_where cid first now)
    (fun d => set_updatedAt stamp (set_status processing d)) s.

(** Statement 3: [findMany] of what was just taken. *)
Definition batch_where (cid : Z) (first : Dispatch) (claimTime : Z) (d : Dispatch) : bool :=
  same_group cid first d && has_status processing d && (claimTime <=? updatedAt d)%Z.

Definition claim_read (cid : Z) (first : Dispatch) (claimTime : Z) (s : Store)
  : list Dispatch :=
  findMany_by_messageOrder (batch_where cid first claimTime) s.

(** The part of an attempt that follows [findFirst]. *)
Definition claim_take (cid : Z) (clk : ClaimClock)
    (directory : string -> option ContactProfile) (first : Dispatch) (s : Store)
  : Store * option Claim :=
  let '(count, s') := claim_update cid first (now clk) (updTime clk) s in
  if (count =? 0)%Z then (s', None)
  else
    (s', Some (mkClaim (contact first) (sessionName first)
                 (directory (contact first))
                 (claim_read cid first (claimTime clk) s'))).

(** The body of the transaction, run without interference. *)
Definition claim_tx (cid : Z) (clk : ClaimClock)
    (directory : string -> option ContactProfile) (s : Store)
  : Store * option Claim :=
  match claim_find cid (now clk) s with
  | None => (s, None)
  | Some first => claim_take cid clk directory first s
  end.

(** [claimNextContactBatch(campaignId)].  [fault] is the error of the
    transaction (timeout, connectivity), which rolls it back. *)
Definition claimNextContactBatch (cid : Z) (clk : ClaimClock)
    (fault : option JsError) (directory : string -> option ContactProfile)
    (s : Store) : Store * Result (option Claim) :=
  match fault with
  | Some e => (s, Throw e)
  | None => let '(s', r) := claim_tx cid clk directory s in (s', Return r)
  end.

(** ** Configuration and environment *)

(** The module constants read from the process environment, and
    [JSON.parse] ([None] when it throws). *)
Record Config := mkConfig {
  WHATSAPP_EXTERNAL_API : string;
  MAX_CAMPAIGN_CONCURRENCY : Z;
  PROCESSING_TTL_MS : Z;
  JSON_parse : string -> option JsVal;
}.

(** The columns [findUnique] selects from the campaign row; [delay] and
    [contactDelay] are nullable. *)
Record Campaign := mkCampaign {
  delay : option Z;
  contactDelay : option Z;
  campaign_status : string;
}.

(** ** Message dispatch *)

Definition text_payload (raw : string) : JsVal :=
  JObj [("type", JStr "text"); ("text", JStr raw)].

Definition is_object (v : JsVal) : bool :=
  match v with JObj _ | JArr _ | JNull => true | _ => false end.

(** [parsePayload(raw)]. *)
Definition parsePayload (cfg : Config) (raw : string) : JsVal :=
  match JSON_parse cfg raw with
  | Some obj =>
      if truthy obj && is_object obj && truthy (opt_get obj "type")
      then obj else text_payload raw
  | None => text_payload raw
  end.

(** [s.split(c)[0]] and [s.split(c).pop()]. *)
Fixpoint before_first (c : ascii) (s : string) : string :=
  match s with
  | String x rest => if Ascii.eqb x c then "" else String x (before_first c rest)
  | EmptyString => ""
  end.

Fixpoint after_last (c : ascii) (s : string) : string :=
  match s with
  | String x rest =>
      if existsb (Ascii.eqb c) (list_ascii_of_string rest) then after_last c rest
      else if Ascii.eqb x c then rest else s
  | EmptyString => ""
  end.

(** [filenameFromUrl(u, fallback)]; a [u] without a [split] method throws
    inside the [try] and yields the fallback. *)
Definition filenameFromUrl (u : JsVal) (fallback : string) : string :=
  match u with
  | JStr s =>
      let last := after_last "/" (before_first "?" s) in
      if String.eqb last "" then fallback else last
  | _ => fallback
  end.

(** [String(contact).replace(/[^\d]/g, '')]. *)
Definition is_digit (c : ascii) : bool :=
  let n := nat_of_ascii c in ((48 <=? n) && (n <=? 57))%nat.

Definition cleanNumber (contact : string) : string :=
  string_of_list_ascii (List.filter is_digit (list_ascii_of_string contact)).

Inductive Event :=
| EvClaim (cid : Z)
| EvPost (url : string) (body : list (string * JsVal))
| EvSleep (ms : Z).

Definition type_is (payload : JsVal) (t : string) : bool :=
  match opt_get payload "type" with
  | JStr s => String.eqb s t
  | _ => false
  end.

(** The [switch (payload.type)]: the url and the body of the POST, or the
    exception raised while building it. *)
Definition build_request (cfg : Config) (d : Dispatch) (number : string)
    (contactData : option ContactProfile) (payload : JsVal)
  : Result (string * list (string * JsVal)) :=
  let base := WHATSAPP_EXTERNAL_API cfg ++ "/" ++ sessionName d in
  let caption := or_else (opt_get payload "text") (JStr "") in
  if type_is payload "image" then
    Return (base ++ "/sendimage",
            [("telnumber", JStr number);
             ("imagePath", opt_get payload "imageUrl");
             ("filename", JStr (filenameFromUrl (opt_get payload "imageUrl") "imagem.jpg"));
             ("caption", caption)])
  else if type_is payload "video" then
    Return (base ++ "/sendvideo",
            [("telnumber", JStr number);
             ("videoPath", opt_get payload "videoUrl");
             ("filename", JStr (filenameFromUrl (opt_get payload "videoUrl") "video.mp4"));
             ("caption", caption)])
  else if type_is payload "audio" then
    Return (base ++ "/sendptt",
            [("telnumber", JStr number);
             ("audioPath", opt_get payload "audioUrl")])
  else if type_is payload "document" then
    Return (base ++ "/senddocument",
            [("telnumber", JStr number);
             ("filePath", opt_get payload "documentUrl");
             ("filename", JStr (filenameFromUrl (opt_get payload "documentUrl") "documento"));
             ("caption", caption)])
  else
    bind (renderTemplate (opt_get payload "text") (template_data contactData))
      (fun finalMessage =>
         Return (base ++ "/sendmessage",
                 [("telnumber", JStr number); ("message", JStr finalMessage)])).

(** [data: { status: 'sent', error: null }] and
    [data: { status: 'failed', error: String(err.message || err) }]. *)
Definition mark_sent (d : Dispatch) : Dispatch := set_error None (set_status sent d).

Definition failure_text (err : JsError) : string :=
  if String.eqb (emessage err) "" then error_toString err else emessage err.

Definition mark_failed (err : JsError) (d : Dispatch) : Dispatch :=
  set_error (Some (failure_text err)) (set_status failed d).

(** The [try] block of one message: the POST, then either the update to
    [sent] or the error thrown on a response without a truthy [status].
    [answer] is what [axios.post] resolves to ([res.data]) or rejects with,
    [fault] the error of the store on the update to [sent], if any. *)
Definition try_send (cfg : Config) (number : string)
    (contactData : option ContactProfile) (answer : Result JsVal)
    (fault : option JsError) (d : Dispatch) (s : Store)
  : Store * list Event * Result unit :=
  match build_request cfg d number contactData (parsePayload cfg (message d)) with
  | Throw e => (s, [], Throw e)
  | Return (url, body) =>
      match answer with
      | Throw e => (s, [EvPost url body], Throw e)
      | Return data =>
          if truthy (opt_get data "status") then
            match update fault (id d) mark_sent s with
            | Return s' => (s', [EvPost url body], Return tt)
            | Throw e => (s, [EvPost url body], Throw e)
            end
          else
            (s, [EvPost url body],
             Throw (Error (ToString (or_else (opt_get data "message")
                                             (JStr "Falha no envio")))))
      end
  end.

(** One turn of [for (const dispatch of batch)]: the [try], its [catch]
    (whose own failure is only logged), and the delay between messages.
    [faults i st] is the error of the store on the update of row [i] to
    status [st], if any. *)
Definition send_dispatch (cfg : Config) (number : string)
    (contactData : option ContactProfile) (gateway : Z -> Result JsVal)
    (faults : Z -> DispatchStatus -> option JsError)
    (delayMs : Z) (d : Dispatch) (s : Store) : Store * list Event :=
  let '(s1, evs, r) :=
    try_send cfg number contactData (gateway (id d)) (faults (id d) sent) d s in
  let s2 :=
    match r with
    | Return _ => s1
    | Throw err =>
        match update (faults (id d) failed) (id d) (mark_failed err) s1 with
        | Return s' => s'
        | Throw _ => s1
        end
    end in
  (s2, (evs ++ (if (0 <? delayMs)%Z then [EvSleep delayMs] else []))%list).

Fixpoint send_batch (cfg : Config) (number : string)
    (contactData : option ContactProfile) (gateway : Z -> Result JsVal)
    (faults : Z -> DispatchStatus -> option JsError)
    (delayMs : Z) (batch : list Dispatch) (s : Store) : Store * list Event :=
  match batch with
  | [] => (s, [])
  | d :: rest =>
      let '(s1, ev1) :=
        send_dispatch cfg number contactData gateway faults delayMs d s in
      let '(s2, ev2) :=
        send_batch cfg number contactData gateway faults delayMs rest s1 in
      (s2, (ev1 ++ ev2)%list)
  end.

(** ** Campaign loop *)

(** What the outside world answers during one turn of [while (true)]. *)
Record IterEnv := mkIterEnv {
  findUnique : Result (option Campaign);
  clock : ClaimClock;
  tx_fault : option JsError;
  directory : string -> option ContactProfile;
  gateway : Z -> Result JsVal;
  update_fault : Z -> DispatchStatus -> option JsError;
}.

(** [Number(campaign?.delay ?? 30000)] and
    [Number(campaign?.contactDelay ?? 0)]. *)
Definition delayMs_of (campaign : Campaign) : Z :=
  match delay campaign with Some n => n | None => 30000 end.

Definition contactDelayMs_of (campaign : Campaign) : Z :=
  match contactDelay campaign with Some n => n | None => 0 end.

(** How one turn of the loop ends: [return], or the next turn (by
    [continue], by reaching the end of the body, or through the [catch]). *)
Inductive Outcome := Exit | Continue.

Definition iteration (cfg : Config) (cid : Z) (env : IterEnv) (s : Store)
  : Store * list Event * Outcome :=
  match findUnique env with
  | Throw _ => (s, [EvSleep 5000], Continue)
  | Return None => (s, [], Exit)
  | Return (Some campaign) =>
      if String.eqb (campaign_status campaign) "paused"
      then (s, [EvSleep 10000], Continue)
      else
        let delayMs := delayMs_of campaign in
        let contactDelayMs := contactDelayMs_of campaign in
        match claimNextContactBatch cid (clock env) (tx_fault env) (directory env) s with
        | (s1, Throw _) => (s1, [EvClaim cid; EvSleep 5000], Continue)
        | (s1, Return None) => (s1, [EvClaim cid], Exit)
        | (s1, Return (Some claim)) =>
            match batch claim with
            | [] => (s1, [EvClaim cid], Exit)
            | _ :: _ =>
                let '(s2, evs) :=
                  send_batch cfg (cleanNumber (claim_contact claim))
                    (contactData claim) (gateway env) (update_fault env)
                    delayMs (batch claim) s1 in
                (s2,
                 (EvClaim cid :: evs
                  ++ (if (0 <? contactDelayMs)%Z then [EvSleep contactDelayMs] else []))%list,
                 Continue)
            end
        end
  end.

(** The loop, run for as many turns as there are environments; [Running]
    when they are used up before a [return]. *)
Inductive LoopStatus := Returned | Running.

Fixpoint campaign_loop (cfg : Config) (cid : Z) (envs : list IterEnv) (s : Store)
  : Store * list Event * LoopStatus :=
  match envs with
  | [] => (s, [], Running)
  | env :: rest =>
      let '(s1, ev1, o) := iteration cfg cid env s in
      match o with
      | Exit => (s1, ev1, Returned)
      | Continue =>
          let '(s2, ev2, st) := campaign_loop cfg cid rest s1 in
          (s2, (ev1 ++ ev2)%list, st)
      end
  end.

(** [processCampaign(campaignId)]: the first read of the campaign row, then
    the loop. *)
Definition processCampaign (cfg : Config) (cid : Z)
    (initial : Result (option Campaign)) (envs : list IterEnv) (s : Store)
  : Store * list Event * LoopStatus :=
  match initial with
  | Throw _ => (s, [], Returned)
  | Return None => (s, [], Returned)
  | Return (Some _) => campaign_loop cfg cid envs s
  end.

(** ** Orchestrator *)

(** [distinct]: the first occurrence of each value, in order. *)
Fixpoint distinct (l : list Z) : list Z :=
  match l with
  | [] => []
  | x :: rest => x :: List.filter (fun y => negb (y =? x)%Z) (distinct rest)
  end.

(** [findMany({ where: pending and ready, distinct: ['campaignId'] })]. *)
Definition discover (now : Z) (s : Store) : list Z :=
  distinct
    (List.map campaignId
       (List.filter (fun d => has_status pending d && ready now d) s)).

(** The [for] over [availableCampaigns]: the RunningSet afterwards and the
    campaigns launched, in order. *)
Fixpoint launch (max : Z) (available : list Z) (running : gset Z)
  : gset Z * list Z :=
  match available with
  | [] => (running, [])
  | cid :: rest =>
      if bool_decide (cid ∈ running) then launch max rest running
      else if (0 <? max)%Z && (max <=? Z.of_nat (size running))%Z
      then (running, [])
      else
        let '(running', launched) := launch max rest ({[cid]} ∪ running) in
        (running', cid :: launched)
  end.

(** The [.catch(...).finally(...)] attached to a launched loop: whether
    [processCampaign] resolves or rejects, the id leaves the set. *)
Definition settle (cid : Z) (completion : Result unit) (running : gset Z)
  : gset Z :=
  match completion with
  | Return _ => running ∖ {[cid]}
  | Throw _ => running ∖ {[cid]}
  end.

(** How a loop that has returned settles its promise; [None] while it is
    still running. *)
Definition completion_of (st : LoopStatus) : option (Result unit) :=
  match st with
  | Returned => Some (Return tt)
  | Running => None
  end.

(** What the outside world answers during one tick. *)
Record TickEnv := mkTickEnv {
  revive_now : Z;
  revive_fault : option JsError;
  tick_now : Z;
  discover_fault : option JsError;
}.

(** [orchestrate()]: the reviver, the discovery, the launches. *)
Definition orchestrate (cfg : Config) (env : TickEnv) (s : Store)
    (running : gset Z) : Store * gset Z * list Z :=
  let '(s1, _) :=
    reviveStuckProcessing (PROCESSING_TTL_MS cfg) (revive_now env)
      (revive_fault env) s in
  match discover_fault env with
  | Some _ => (s1, running, [])
  | None =>
      let '(running', launched) :=
        launch (MAX_CAMPAIGN_CONCURRENCY cfg) (discover (tick_now env) s1) running in
      (s1, running', launched)
  end.

(** One launched loop, from its start to the settling of its promise: the
    table and the RunningSet it leaves.  While the loop has not returned
    the set is as the launch left it. *)
Definition campaign_task (cfg : Config) (cid : Z)
    (initial : Result (option Campaign)) (envs : list IterEnv) (s : Store)
    (running : gset Z) : Store * gset Z * LoopStatus :=
  let '(s', _, st) := processCampaign cfg cid initial envs s in
  match completion_of st with
  | Some completion => (s', settle cid completion running, st)
  | None => (s', running, st)
  end.

(** ** Racing attempts *)

(** Attempts race when each has run its [findFirst] on the same table
    before any of them has run its conditional update.  The store then
    executes the updates one after the other, each on the rows the previous
    ones left (the worker relies on this: a second update of rows that are
    no longer [pending] matches nothing).  [later_takes] runs the attempts
    that come after the first one; each entry is the clock of an attempt
    and the row its [findFirst] returned. *)
Fixpoint later_takes (cid : Z) (directory : string -> option ContactProfile)
    (others : list (ClaimClock * Dispatch)) (s : Store)
  : Store * list (option Claim) :=
  match others with
  | [] => (s, [])
  | (clk, first) :: rest =>
      let '(s1, r) := claim_take cid clk directory first s in
      let '(s2, rs) := later_takes cid directory rest s1 in
      (s2, r :: rs)
  end.

(** No [pending] row of the group of [first] becomes ready between the
    clock read [t] of the attempt that updates first and the clock read
    [t'] of another attempt. *)
Definition no_row_due_between (cid : Z) (first : Dispatch) (t t' : Z)
    (s : Store) : Prop :=
  forall d, d ∈ s -> same_group cid first d = true ->
    has_status pending d = true -> ready t' d = true -> ready t d = true.

(** ** Vocabulary of the properties *)

(** [key_le a b]: [a] does not come after [b] in the order of [findFirst]. *)
Definition key_le (a b : Dispatch) : Prop :=
  String.compare (contact a) (contact b) = Lt
  \/ (contact a = contact b
      /\ (messageOrder a < messageOrder b
          \/ (messageOrder a = messageOrder b /\ createdAt a <= createdAt b)))%Z.

(** Strictly increasing [messageOrder]. *)
Definition order_lt (a b : Dispatch) : Prop := (messageOrder a < messageOrder b)%Z.

(** The rows of one (campaign, contact, session) group carry pairwise
    different [messageOrder] values. *)
Definition orders_distinct (cid : Z) (first : Dispatch) (s : Store) : Prop :=
  NoDup (List.map messageOrder (List.filter (same_group cid first) s)).

(** A row as the conditional update of a claim leaves it. *)
Definition claimed (stamp : Z) (d : Dispatch) : Dispatch :=
  set_updatedAt stamp (set_status processing d).

(** The sleeps and the POSTs of a trace, in order. *)
Definition sleeps (evs : list Event) : list Z :=
  flat_map (fun e => match e with EvSleep ms => [ms] | _ => [] end) evs.

Definition posts (evs : list Event) : list (string * list (string * JsVal)) :=
  flat_map (fun e => match e with EvPost url body => [(url, body)] | _ => [] end) evs.

Definition claims (evs : list Event) : list Z :=
  flat_map (fun e => match e with EvClaim cid => [cid] | _ => [] end) evs.

(** The request the loop makes for a message, if it gets to make one. *)
Definition requests_of (cfg : Config) (number : string)
    (contactData : option ContactProfile) (d : Dispatch)
  : list (string * list (string * JsVal)) :=
  match build_request cfg d number contactData (parsePayload cfg (message d)) with
  | Return r => [r]
  | Throw _ => []
  end.

(** How the [try] block of a message ends when its row is in the table. *)
Definition send_verdict (cfg : Config) (number : string)
    (contactData : option ContactProfile) (answer : Result JsVal) (d : Dispatch)
  : Result unit :=
  match build_request cfg d number contactData (parsePayload cfg (message d)) with
  | Throw e => Throw e
  | Return _ =>
      match answer with
      | Throw e => Throw e
      | Return data =>
          if truthy (opt_get data "status") then Return tt
          else Throw (Error (ToString (or_else (opt_get data "message")
                                               (JStr "Falha no envio"))))
      end
  end.

(** The row of a message after its turn of the loop: [v] is how the send
    ended, [fsent] and [ffailed] the errors of the store on the update to
    [sent] and on the update to [failed], if any.  A row whose update to
    [failed] the store refuses is left as it was. *)
Definition settle_row (v : Result unit) (fsent ffailed : option JsError)
    (r : Dispatch) : Dispatch :=
  match v, fsent with
  | Return _, None => mark_sent r
  | Return _, Some e =>
      match ffailed with None => mark_failed e r | Some _ => r end
  | Throw err, _ =>
      match ffailed with None => mark_failed err r | Some _ => r end
  end.

(** A row after the turns of a whole batch. *)
Definition row_after (cfg : Config) (number : string)
    (contactData : option ContactProfile) (gateway : Z -> Result JsVal)
    (faults : Z -> DispatchStatus -> option JsError)
    (batch : list Dispatch) (r : Dispatch) : Dispatch :=
  match List.find (fun d => (id d =? id r)%Z) batch with
  | Some d =>
      settle_row (send_verdict cfg number contactData (gateway (id d)) d)
        (faults (id d) sent) (faults (id d) failed) r
  | None => r
  end.

(** ** Sample rows *)

(** A row of campaign 1 for the contact of the specification's scenario,
    with [messageOrder] equal to its id and no schedule. *)
Definition row_of (i cid order : Z) (st : DispatchStatus) (sched : option Z)
    (upd : Z) : Dispatch :=
  mkDispatch i cid "s1" "5511999999999" order "hello" st sched None 0 upd.

Definition row (i : Z) (st : DispatchStatus) (upd : Z) : Dispatch :=
  row_of i 1 i st None upd.

(** The configuration of the examples: [JSON.parse] knows one payload. *)
Definition sample_config : Config :=
  mkConfig "http://localhost:3001" 1 1800000
    (fun raw => if String.eqb raw "IMG"
                then Some (JObj [("type", JStr "image");
                                 ("imageUrl", JStr "http://cdn/a/pic.jpg?v=2")])
                else None).

(** The image message of the scenario, second in its contact's batch. *)
Definition image_row (st : DispatchStatus) (upd : Z) : Dispatch :=
  mkDispatch 2 1 "s1" "5511999999999" 2 "IMG" st None None 0 upd.

(** A store that performs every update. *)
Definition no_fault (i : Z) (st : DispatchStatus) : option JsError := None.

(** A gateway that accepts message 1 and refuses every other one. *)
Definition sample_gateway (i : Z) : Result JsVal :=
  if (i =? 1)%Z then Return (JObj [("status", JBool true)])
  else Return (JObj [("status", JBool false); ("message", JStr "no session")]).

(** ** Gateway helpers (examples/rest/index.js) *)


(** ** Vocabulary of the further properties *)

Definition has_char (c : ascii) (s : string) : bool :=
  existsb (Ascii.eqb c) (list_ascii_of_string s).

Definition all_chars (p : ascii -> bool) (s : string) : bool :=
  forallb p (list_ascii_of_string s).

(** [g] rewrites rows of campaign [cid] only, and keeps every row in its
    campaign. *)
Definition only_campaign (cid : Z) (g : Dispatch -> Dispatch) : Prop :=
  forall d, campaignId (g d) = campaignId d
            /\ (campaignId d <> cid -> g d = d).

(** A row in a final state of its lifecycle. *)
Definition terminal (d : Dispatch) : Prop := status d = sent \/ status d = failed.

(** Two rows that differ at most in [status], [error] and [updatedAt]: the
    same message of the same campaign to the same contact. *)
Definition same_message (a b : Dispatch) : Prop :=
  id a = id b /\ campaignId a = campaignId b /\ sessionName a = sessionName b
  /\ contact a = contact b /\ messageOrder a = messageOrder b
  /\ message a = message b /\ scheduledAt a = scheduledAt b
  /\ createdAt a = createdAt b.

(** A turn of the campaign loop that meets a fault: the campaign row cannot
    be read, or the claim transaction fails. *)
Definition faulty_turn (env : IterEnv) : Prop :=
  (exists e, findUnique env = Throw e)
  \/ (exists c e, findUnique env = Return (Some c)
                  /\ String.eqb (campaign_status c) "paused" = false
                  /\ tx_fault env = Some e).

(** * Properties *)

(** ** Table statements *)

Lemma lookup_map (f : Dispatch -> Dispatch) (s : Store) i :
  List.map f s !! i = f <$> (s !! i).
Proof. apply list_lookup_fmap. Qed.

Lemma updateMany_lookup where_ data (s : Store) i :
  (updateMany where_ data s).2 !! i
  = (fun d => if where_ d then data d else d) <$> (s !! i).
Proof. unfold updateMany. simpl. apply list_lookup_fmap. Qed.

Lemma updateMany_length where_ data (s : Store) :
  List.length (updateMany where_ data s).2 = List.length s.
Proof. unfold updateMany. simpl. apply length_map. Qed.

Lemma updateMany_none where_ data (s : Store) :
  (forall d, d ∈ s -> where_ d = false) ->
  updateMany where_ data s = (0%Z, s).
Proof.
  intros Hnone. unfold updateMany. f_equal.
  - induction s as [|d s IH]; [reflexivity|]. simpl.
    rewrite (Hnone d) by (left). apply IH.
    intros d' Hd'. apply Hnone. by right.
  - induction s as [|d s IH]; [reflexivity|]. simpl.
    rewrite (Hnone d) by (left). f_equal. apply IH.
    intros d' Hd'. apply Hnone. by right.
Qed.

Lemma filter_none (p : Dispatch -> bool) (l : list Dispatch) :
  (forall d, d ∈ l -> p d = false) -> List.filter p l = [].
Proof.
  induction l as [|d l IH]; intros Hnone; [reflexivity|]. simpl.
  rewrite (Hnone d) by (left). apply IH. intros d' Hd'. apply Hnone. by right.
Qed.

(** ** Reviver *)

(** C3. One run of the reviver, when the store answers, leaves every row
    that was [processing] with [updatedAt] before [now - ttl] at its place
    with status [pending] and nothing else of it touched, and every other
    row exactly as it was; and whether or not the store raises an error,
    the reviver returns normally. *)
Theorem revive_resets_exactly_the_stuck_rows ttl t (s : Store) :
  (forall i d, s !! i = Some d ->
     let s' := (reviveStuckProcessing ttl t None s).1 in
     (stuck (t - ttl) d = true ->
        exists d', s' !! i = Some d' /\ status d' = pending
                   /\ d' = set_status pending d)
     /\ (stuck (t - ttl) d = false -> s' !! i = Some d))
  /\ List.length (reviveStuckProcessing ttl t None s).1 = List.length s
  /\ (forall fault, (reviveStuckProcessing ttl t fault s).2 = Return tt)
  /\ (forall e, (reviveStuckProcessing ttl t (Some e) s).1 = s).
Proof.
  unfold reviveStuckProcessing. repeat split.
  - intros Hstuck. exists (set_status pending d). repeat split.
    change ((updateMany (stuck (t - ttl)) (set_status pending) s).2 !! i
            = Some (set_status pending d)).
    rewrite updateMany_lookup, H. simpl. by rewrite Hstuck.
  - intros Hfresh.
    change ((updateMany (stuck (t - ttl)) (set_status pending) s).2 !! i = Some d).
    rewrite updateMany_lookup, H. simpl. by rewrite Hfresh.
  - apply (updateMany_length (stuck (t - ttl)) (set_status pending)).
  - intros [e|]; reflexivity.
Qed.

Lemma revive_resets_exactly_the_stuck_rows_witness :
  let s := [row 1 processing 10; row 2 processing 5000; row 3 sent 10] in
  let s' := (reviveStuckProcessing 1000 3000 None s).1 in
  (exists d', s' !! 0%nat = Some d' /\ status d' = pending
              /\ d' = set_status pending (row 1 processing 10))
  /\ s' !! 1%nat = Some (row 2 processing 5000)
  /\ s' !! 2%nat = Some (row 3 sent 10).
Proof.
  intros s s'.
  destruct (revive_resets_exactly_the_stuck_rows 1000 3000 s) as (Hrows & _).
  split; [|split].
  - apply (Hrows 0%nat (row 1 processing 10) eq_refl). reflexivity.
  - apply (Hrows 1%nat (row 2 processing 5000) eq_refl). reflexivity.
  - apply (Hrows 2%nat (row 3 sent 10) eq_refl). reflexivity.
Defined.

(** ** Claim engine *)

(** C7. When no row of the campaign is [pending] and ready, the claim engine
    resolves to [null] and the table it leaves is the table it found. *)
Theorem claim_without_ready_rows_is_null cid clk dir (s : Store) :
  (forall d, d ∈ s -> pending_ready cid (now clk) d = false) ->
  claimNextContactBatch cid clk None dir s = (s, Return None).
Proof.
  intros Hnone. unfold claimNextContactBatch, claim_tx, claim_find.
  rewrite filter_none by exact Hnone. reflexivity.
Qed.

Lemma claim_without_ready_rows_is_null_witness :
  claimNextContactBatch 1 (mkClock 100 101 102) None (fun _ => None)
    [row 1 sent 10; row 2 processing 20]
  = ([row 1 sent 10; row 2 processing 20], Return None).
Proof.
  apply claim_without_ready_rows_is_null.
  intros d Hd. apply list_elem_of_In in Hd. simpl in Hd.
  destruct Hd as [<-|[<-|[]]]; reflexivity.
Defined.

(** *** The order of [findFirst] *)

Lemma compare_refl (a : string) : String.compare a a = Eq.
Proof.
  induction a as [|c a IH]; [reflexivity|]. simpl.
  assert (Ascii.compare c c = Eq) as ->; [|exact IH].
  destruct (Ascii.compare c c) eqn:E; [reflexivity| |];
    pose proof (Ascii.compare_antisym c c) as H; rewrite E in H; discriminate.
Qed.

Lemma compare_Lt_le (a b : string) : String.compare a b = Lt -> String.le a b.
Proof. intros H. unfold String.le, String.leb. by rewrite H. Qed.

Lemma compare_Lt_Gt (a b : string) :
  String.compare a b = Lt <-> String.compare b a = Gt.
Proof.
  rewrite (String.compare_antisym b a).
  destruct (String.compare a b); simpl; split; congruence.
Qed.

Lemma compare_Lt_trans (a b c : string) :
  String.compare a b = Lt -> String.compare b c = Lt -> String.compare a c = Lt.
Proof.
  intros Hab Hbc.
  assert (String.le a c) as Hac.
  { transitivity b; by apply compare_Lt_le. }
  unfold String.le, String.leb in Hac.
  destruct (String.compare a c) eqn:E; [|reflexivity|done].
  apply String.compare_eq_iff in E. subst c.
  apply compare_Lt_Gt in Hab. congruence.
Qed.

Lemma key_lt_false (a b : Dispatch) : key_lt b a = false <-> key_le a b.
Proof.
  unfold key_lt, key_le.
  destruct (String.compare (contact b) (contact a)) eqn:E.
  - apply String.compare_eq_iff in E. rewrite E, compare_refl.
    split.
    + intros H. right. split; [reflexivity|].
      apply orb_false_iff in H as [H1 H2].
      apply andb_false_iff in H2. lia.
    + intros [H|[_ H]]; [discriminate|].
      apply orb_false_iff. rewrite andb_false_iff. lia.
  - split; [discriminate|].
    intros [H|[H _]].
    + apply compare_Lt_Gt in H. congruence.
    + rewrite H, compare_refl in E. discriminate.
  - split; [|reflexivity]. intros _. left. by apply compare_Lt_Gt.
Qed.

Lemma key_le_refl (a : Dispatch) : key_le a a.
Proof. right. split; [reflexivity|]. right. split; [reflexivity|lia]. Qed.

Lemma key_le_trans (a b c : Dispatch) : key_le a b -> key_le b c -> key_le a c.
Proof.
  unfold key_le. intros [Hab|[Hab Hab']] [Hbc|[Hbc Hbc']].
  - left. by eapply compare_Lt_trans.
  - left. by rewrite <- Hbc.
  - left. by rewrite Hab.
  - right. split; [congruence|lia].
Qed.

Lemma key_le_total (a b : Dispatch) : key_le a b \/ key_le b a.
Proof.
  destruct (key_lt b a) eqn:E.
  - right. apply key_lt_false. unfold key_lt in *.
    destruct (String.compare (contact b) (contact a)) eqn:Ec.
    + apply String.compare_eq_iff in Ec. rewrite Ec, compare_refl.
      apply orb_false_iff. rewrite andb_false_iff.
      apply orb_true_iff in E. rewrite andb_true_iff in E. lia.
    + apply compare_Lt_Gt in Ec. by rewrite Ec.
    + discriminate.
  - left. by apply key_lt_false.
Qed.

(** [first_by key_lt] returns a least row of a list that has one. *)
Lemma first_by_least (l : list Dispatch) :
  l <> [] ->
  exists m, first_by key_lt l = Some m /\ m ∈ l /\ forall d, d ∈ l -> key_le m d.
Proof.
  induction l as [|d l IH]; [done|]. intros _. simpl.
  destruct l as [|d' l'].
  - exists d. simpl. split; [reflexivity|]. split; [by left|].
    intros x Hx. apply list_elem_of_singleton in Hx. subst. apply key_le_refl.
  - destruct IH as (m & Hm & Hin & Hleast); [done|]. rewrite Hm.
    destruct (key_lt m d) eqn:E.
    + exists m. split; [reflexivity|]. split; [by right|].
      intros x Hx. apply elem_of_cons in Hx as [->|Hx]; [|by apply Hleast].
      destruct (key_le_total m d) as [H|H]; [exact H|].
      apply key_lt_false in H. congruence.
    + exists d. split; [reflexivity|]. split; [by left|].
      apply key_lt_false in E.
      intros x Hx. apply elem_of_cons in Hx as [->|Hx]; [apply key_le_refl|].
      eapply key_le_trans; [exact E|by apply Hleast].
Qed.

Lemma elem_of_filter_bool (p : Dispatch -> bool) (l : list Dispatch) d :
  d ∈ List.filter p l <-> d ∈ l /\ p d = true.
Proof. rewrite !list_elem_of_In. apply filter_In. Qed.

(** [findFirst] returns a ready row of the campaign that no ready row of the
    campaign precedes. *)
Lemma claim_find_least cid t (s : Store) :
  (exists d, d ∈ s /\ pending_ready cid t d = true) ->
  exists first, claim_find cid t s = Some first
    /\ first ∈ s /\ pending_ready cid t first = true
    /\ forall d, d ∈ s -> pending_ready cid t d = true -> key_le first d.
Proof.
  intros (d & Hd & Hready). unfold claim_find.
  destruct (first_by_least (List.filter (pending_ready cid t) s))
    as (m & Hm & Hin & Hleast).
  { intros Hnil. assert (d ∈ List.filter (pending_ready cid t) s) as H
      by (by apply elem_of_filter_bool).
    rewrite Hnil in H. by apply not_elem_of_nil in H. }
  apply elem_of_filter_bool in Hin as [Hin Hp].
  exists m. repeat split; try done.
  intros x Hx Hpx. apply Hleast. by apply elem_of_filter_bool.
Qed.

(** *** The batch of a claim *)

#[global] Instance order_le_trans : Transitive order_le.
Proof. intros a b c. unfold order_le. lia. Qed.

#[global] Instance order_le_total : Total order_le.
Proof. intros a b. unfold order_le. lia. Qed.

Lemma filter_sublist (p q : Dispatch -> bool) (l : list Dispatch) :
  (forall d, p d = true -> q d = true) ->
  List.filter p l `sublist_of` List.filter q l.
Proof.
  intros Hpq. induction l as [|d l IH]; simpl; [constructor|].
  destruct (p d) eqn:Hp.
  - rewrite (Hpq d Hp). by constructor.
  - destruct (q d); [by constructor|exact IH].
Qed.

Lemma filter_map_stable (q : Dispatch -> bool) (g : Dispatch -> Dispatch)
    (l : list Dispatch) :
  (forall d, q (g d) = q d) -> (forall d, messageOrder (g d) = messageOrder d) ->
  List.map messageOrder (List.filter q (List.map g l))
  = List.map messageOrder (List.filter q l).
Proof.
  intros Hq Ho. induction l as [|d l IH]; [reflexivity|]. simpl.
  rewrite Hq. destruct (q d); simpl; [rewrite Ho|]; by rewrite IH.
Qed.

Lemma sorted_distinct_strict (l : list Dispatch) :
  StronglySorted order_le l -> NoDup (List.map messageOrder l) ->
  StronglySorted order_lt l.
Proof.
  induction 1 as [|a l Hsorted IH Hall]; intros Hnd; [constructor|].
  simpl in Hnd. apply NoDup_cons in Hnd as [Hnotin Hnd].
  constructor; [by apply IH|].
  apply Forall_forall. intros x Hx.
  rewrite Forall_forall in Hall. specialize (Hall x Hx).
  unfold order_le in Hall. unfold order_lt.
  destruct (decide (messageOrder a = messageOrder x)) as [Heq|Hne]; [|lia].
  exfalso. apply Hnotin. rewrite Heq.
  apply list_elem_of_In, in_map, list_elem_of_In, Hx.
Qed.

Lemma same_group_claimed cid first stamp d :
  same_group cid first (claimed stamp d) = same_group cid first d.
Proof. reflexivity. Qed.

Lemma claim_update_count_pos cid first t stamp (s : Store) :
  first ∈ s -> claim_where cid first t first = true ->
  ((claim_update cid first t stamp s).1 =? 0)%Z = false.
Proof.
  intros Hin Hw. unfold claim_update, updateMany. simpl.
  assert (first ∈ List.filter (claim_where cid first t) s) as H
    by (by apply elem_of_filter_bool).
  destruct (List.filter (claim_where cid first t) s); [by apply not_elem_of_nil in H|].
  simpl. lia.
Qed.

Lemma pending_ready_claim_where cid t first :
  pending_ready cid t first = true -> claim_where cid first t first = true.
Proof.
  unfold pending_ready, claim_where, same_group.
  rewrite !andb_true_iff. intros [[-> ->] ->].
  by rewrite !String.eqb_refl.
Qed.

Lemma claim_read_elem cid first t (s : Store) d :
  d ∈ claim_read cid first t s <-> d ∈ s /\ batch_where cid first t d = true.
Proof.
  unfold claim_read, findMany_by_messageOrder.
  rewrite merge_sort_Permutation. apply elem_of_filter_bool.
Qed.

Lemma claim_update_elem cid first t stamp (s : Store) d :
  d ∈ s ->
  (if claim_where cid first t d then claimed stamp d else d)
    ∈ (claim_update cid first t stamp s).2.
Proof.
  intros Hd. unfold claim_update, updateMany. simpl.
  apply list_elem_of_In.
  apply (in_map (fun d => if claim_where cid first t d
                          then set_updatedAt stamp (set_status processing d)
                          else d)).
  by apply list_elem_of_In.
Qed.

Lemma claim_read_sorted cid first t (s : Store) :
  StronglySorted order_le (claim_read cid first t s).
Proof. apply StronglySorted_merge_sort; apply _. Qed.

Lemma claim_read_distinct cid first t now_ stamp (s : Store) :
  orders_distinct cid first s ->
  NoDup (List.map messageOrder
           (claim_read cid first t (claim_update cid first now_ stamp s).2)).
Proof.
  unfold orders_distinct. intros Hnd.
  unfold claim_read, findMany_by_messageOrder.
  change (List.map messageOrder ?l) with (messageOrder <$> l).
  rewrite merge_sort_Permutation.
  eapply sublist_NoDup;
    [|apply fmap_sublist; apply (filter_sublist _ (same_group cid first));
      intros d; unfold batch_where; rewrite !andb_true_iff; tauto].
  unfold claim_update, updateMany. simpl.
  change (messageOrder <$> ?l) with (List.map messageOrder l).
  rewrite filter_map_stable; [exact Hnd| |].
    + intros d. by destruct (claim_where cid first now_ d).
    + intros d. by destruct (claim_where cid first now_ d).
Qed.

Lemma claim_take_eq cid clk dir first (s : Store) :
  claim_take cid clk dir first s
  = let u := claim_update cid first (now clk) (updTime clk) s in
    if (u.1 =? 0)%Z then (u.2, None)
    else (u.2, Some (mkClaim (contact first) (sessionName first)
                       (dir (contact first))
                       (claim_read cid first (claimTime clk) u.2))).
Proof.
  unfold claim_take.
  by destruct (claim_update cid first (now clk) (updTime clk) s).
Qed.

Lemma filter_sublist_all (p : Dispatch -> bool) (l : list Dispatch) :
  List.filter p l `sublist_of` l.
Proof.
  induction l as [|d l IH]; [constructor|]. simpl.
  destruct (p d); by constructor.
Qed.

(** A table whose [messageOrder] values are pairwise different keeps the
    invariant in each of its groups. *)
Lemma orders_distinct_sample (cid : Z) (first : Dispatch) (s : Store) :
  NoDup (List.map messageOrder s) -> orders_distinct cid first s.
Proof.
  intros Hnd. unfold orders_distinct.
  change (List.map messageOrder ?l) with (messageOrder <$> l) in *.
  eapply sublist_NoDup; [exact Hnd|].
  apply fmap_sublist, filter_sublist_all.
Qed.

(** C2. On a table that keeps the invariant of the data model (within a
    (campaign, contact, session) group the [messageOrder] values are
    pairwise different), when the campaign has a ready row: [findFirst]
    selects a ready row of the table that no ready row of the campaign
    precedes in the order (contact, messageOrder, createdAt); the claim
    resolves to a batch for that row's contact; every row of the batch is a
    row of the table the claim leaves, of the campaign, contact and session
    of the selected row, and [processing]; the batch is in strictly
    increasing [messageOrder]; and, when the clock read that stamps the
    update is not earlier than the one taken before it, the batch holds
    every row the update took. *)
Theorem claim_selects_first_and_orders_batch cid clk dir (s : Store) :
  (exists d, d ∈ s /\ pending_ready cid (now clk) d = true) ->
  (forall first, orders_distinct cid first s) ->
  exists first s' c,
    claim_find cid (now clk) s = Some first
    /\ first ∈ s /\ pending_ready cid (now clk) first = true
    /\ (forall d, d ∈ s -> pending_ready cid (now clk) d = true -> key_le first d)
    /\ claimNextContactBatch cid clk None dir s = (s', Return (Some c))
    /\ claim_contact c = contact first
    /\ (forall d, d ∈ batch c ->
          d ∈ s' /\ campaignId d = cid /\ contact d = contact first
          /\ sessionName d = sessionName first /\ status d = processing)
    /\ StronglySorted order_lt (batch c)
    /\ ((claimTime clk <= updTime clk)%Z ->
        forall d, d ∈ s -> claim_where cid first (now clk) d = true ->
          claimed (updTime clk) d ∈ batch c).
Proof.
  intros Hready Hdistinct.
  destruct (claim_find_least cid (now clk) s Hready)
    as (first & Hfind & Hin & Hp & Hleast).
  pose proof (claim_update_count_pos cid first (now clk) (updTime clk) s Hin
                (pending_ready_claim_where _ _ _ Hp)) as Hcount.
  exists first, (claim_update cid first (now clk) (updTime clk) s).2.
  eexists. split; [exact Hfind|]. split; [exact Hin|]. split; [exact Hp|].
  split; [exact Hleast|]. split.
  { unfold claimNextContactBatch, claim_tx. rewrite Hfind, claim_take_eq.
    cbv zeta. rewrite Hcount. reflexivity. }
  simpl. split; [reflexivity|]. split; [|split].
  - intros d Hd. apply claim_read_elem in Hd as [Hd Hb]. split; [exact Hd|].
    unfold batch_where, same_group, has_status in Hb.
    rewrite !andb_true_iff in Hb. destruct Hb as [[[[Hcid Hc] Hn] Hs] _].
    apply String.eqb_eq in Hc. apply String.eqb_eq in Hn.
    apply bool_decide_eq_true in Hs. split; [lia|done].
  - apply sorted_distinct_strict; [apply claim_read_sorted|].
    apply claim_read_distinct, Hdistinct.
  - intros Hclock d Hd Hw. apply claim_read_elem. split.
    + pose proof (claim_update_elem cid first (now clk) (updTime clk) s d Hd) as H.
      by rewrite Hw in H.
    + unfold batch_where. rewrite same_group_claimed.
      unfold claim_where in Hw. apply andb_true_iff in Hw as [Hw _].
      apply andb_true_iff in Hw as [-> _]. simpl. lia.
Qed.

Lemma claim_selects_first_and_orders_batch_witness :
  let s := [row 2 pending 0; row 1 pending 0] in
  let clk := mkClock 100 101 102 in
  exists first s' c,
    claim_find 1 (now clk) s = Some first
    /\ first ∈ s /\ pending_ready 1 (now clk) first = true
    /\ (forall d, d ∈ s -> pending_ready 1 (now clk) d = true -> key_le first d)
    /\ claimNextContactBatch 1 clk None (fun _ => None) s = (s', Return (Some c))
    /\ claim_contact c = contact first
    /\ (forall d, d ∈ batch c ->
          d ∈ s' /\ campaignId d = 1%Z /\ contact d = contact first
          /\ sessionName d = sessionName first /\ status d = processing)
    /\ StronglySorted order_lt (batch c)
    /\ ((claimTime clk <= updTime clk)%Z ->
        forall d, d ∈ s -> claim_where 1 first (now clk) d = true ->
          claimed (updTime clk) d ∈ batch c).
Proof.
  intros s clk. apply claim_selects_first_and_orders_batch.
  - exists (row 1 pending 0). split; [|reflexivity]. right. left.
  - intros first. apply orders_distinct_sample.
    apply (bool_decide_unpack _). vm_compute. exact I.
Defined.

Example claim_in_order :
  (claimNextContactBatch 1 (mkClock 100 101 102) None (fun _ => None)
     [row 2 pending 0; row 1 pending 0]).2
  = Return (Some (mkClaim "5511999999999" "s1" None
                    [row 1 processing 102; row 2 processing 102])).
Proof. vm_compute. reflexivity. Qed.

(** *** Racing attempts *)

Lemma same_group_of_same_group cid a b d :
  same_group cid a b = true -> same_group cid b d = same_group cid a d.
Proof.
  unfold same_group. rewrite !andb_true_iff. intros [[_ Hc] Hs].
  apply String.eqb_eq in Hc. apply String.eqb_eq in Hs. by rewrite Hc, Hs.
Qed.

(** After the update of the first attempt, the update of an attempt on the
    same group that sees no newly due row matches nothing. *)
Lemma claim_where_after_update cid firstA firstB tA tB stamp (s : Store) d' :
  same_group cid firstA firstB = true ->
  no_row_due_between cid firstA tA tB s ->
  d' ∈ (claim_update cid firstA tA stamp s).2 ->
  claim_where cid firstB tB d' = false.
Proof.
  intros Hgroup Hdue Hd'. unfold claim_update, updateMany in Hd'. simpl in Hd'.
  apply list_elem_of_In, in_map_iff in Hd' as (d & <- & Hd).
  apply list_elem_of_In in Hd.
  destruct (claim_where cid firstA tA d) eqn:HA.
  - unfold claim_where. simpl. apply andb_false_iff. left.
    apply andb_false_iff. by right.
  - destruct (claim_where cid firstB tB d) eqn:HB; [|reflexivity].
    exfalso. unfold claim_where in HA, HB.
    rewrite (same_group_of_same_group _ _ _ _ Hgroup) in HB.
    rewrite !andb_true_iff in HB. destruct HB as [[Hg Hp] Hr].
    rewrite Hg, Hp, (Hdue d Hd Hg Hp Hr) in HA. discriminate.
Qed.

(** Whatever the clocks, a row that one update has taken is not matched by
    a later one: a row is never held by two attempts. *)
Lemma no_row_taken_twice cid firstA firstB tA tB stamp (s : Store) d' :
  d' ∈ (claim_update cid firstA tA stamp s).2 ->
  claim_where cid firstB tB d' = true ->
  d' ∈ s /\ claim_where cid firstA tA d' = false.
Proof.
  intros Hd' HB. unfold claim_update, updateMany in Hd'. simpl in Hd'.
  apply list_elem_of_In, in_map_iff in Hd' as (d & <- & Hd).
  apply list_elem_of_In in Hd.
  destruct (claim_where cid firstA tA d) eqn:HA; [|by split].
  unfold claim_where in HB. simpl in HB.
  rewrite andb_false_r in HB. discriminate.
Qed.

Lemma claim_take_loses cid clk dir first (s : Store) :
  (forall d, d ∈ s -> claim_where cid first (now clk) d = false) ->
  (claim_update cid first (now clk) (updTime clk) s).1 = 0%Z
  /\ claim_take cid clk dir first s = (s, None).
Proof.
  intros Hnone. rewrite claim_take_eq. unfold claim_update.
  rewrite updateMany_none by exact Hnone. by split.
Qed.

(** Where the account of the function's own comment does hold.  Attempts
    race for one (campaign, contact, session) group: each has read the same
    table and found a first row of that group.  When no [pending] row of the
    group becomes due between the clock read of the attempt whose update
    runs first and those of the others, that attempt takes at least one row
    and resolves to a claim, and every other attempt matches zero rows,
    leaves the table as it is and resolves to [null]. *)
Lemma claim_race_has_one_winner cid dir (s : Store) clkA firstA
    (others : list (ClaimClock * Dispatch)) :
  claim_find cid (now clkA) s = Some firstA ->
  Forall (fun o => claim_find cid (now o.1) s = Some o.2
                   /\ same_group cid firstA o.2 = true
                   /\ no_row_due_between cid firstA (now clkA) (now o.1) s) others ->
  exists sA cA,
    claim_take cid clkA dir firstA s = (sA, Some cA)
    /\ (0 < (claim_update cid firstA (now clkA) (updTime clkA) s).1)%Z
    /\ Forall (fun o => (claim_update cid o.2 (now o.1) (updTime o.1) sA).1 = 0%Z) others
    /\ later_takes cid dir others sA
       = (sA, List.map (fun _ => None) others).
Proof.
  intros Hfind Hothers.
  assert (firstA ∈ s /\ pending_ready cid (now clkA) firstA = true) as [Hin Hp].
  { unfold claim_find in Hfind.
    destruct (first_by_least (List.filter (pending_ready cid (now clkA)) s))
      as (m & Hm & Hmin & _).
    { intros Hnil. rewrite Hnil in Hfind. discriminate. }
    rewrite Hfind in Hm. injection Hm as <-.
    by apply elem_of_filter_bool in Hmin. }
  pose proof (claim_update_count_pos cid firstA (now clkA) (updTime clkA) s Hin
                (pending_ready_claim_where _ _ _ Hp)) as Hcount.
  exists (claim_update cid firstA (now clkA) (updTime clkA) s).2. eexists.
  split; [rewrite claim_take_eq; cbv zeta; rewrite Hcount; reflexivity|].
  split.
  { unfold claim_update, updateMany in *. simpl in *. lia. }
  assert (forall o, o ∈ others ->
            forall d, d ∈ (claim_update cid firstA (now clkA) (updTime clkA) s).2 ->
            claim_where cid o.2 (now o.1) d = false) as Hlose.
  { intros o Ho d Hd. rewrite Forall_forall in Hothers.
    destruct (Hothers o Ho) as (_ & Hg & Hdue).
    by eapply claim_where_after_update. }
  clear Hothers. split.
  - apply Forall_forall. intros o Ho.
    by apply (claim_take_loses cid o.1 dir o.2), Hlose.
  - induction others as [|[clkB firstB] rest IH]; [reflexivity|].
    cbn [later_takes List.map].
    destruct (claim_take_loses cid clkB dir firstB
                (claim_update cid firstA (now clkA) (updTime clkA) s).2) as [_ ->].
    { apply (Hlose (clkB, firstB)). by left. }
    rewrite IH; [reflexivity|]. intros o Ho. apply Hlose. by right.
Qed.

Example claim_race_sample :
  let s := [row 1 pending 0; row 2 pending 0] in
  let clkA := mkClock 100 101 102 in
  let others := [(mkClock 103 104 105, row 1 pending 0)] in
  exists sA cA,
    claim_take 1 clkA (fun _ => None) (row 1 pending 0) s = (sA, Some cA)
    /\ (0 < (claim_update 1 (row 1 pending 0) (now clkA) (updTime clkA) s).1)%Z
    /\ Forall (fun o => (claim_update 1 o.2 (now o.1) (updTime o.1) sA).1 = 0%Z) others
    /\ later_takes 1 (fun _ => None) others sA
       = (sA, List.map (fun _ => None) others).
Proof.
  intros s clkA others. apply claim_race_has_one_winner.
  - reflexivity.
  - repeat constructor. intros d Hd _ _ _.
    apply list_elem_of_In in Hd. simpl in Hd.
    destruct Hd as [<-|[<-|[]]]; reflexivity.
Qed.

(** C1, at the failing input.  Two attempts race for the group of one
    contact, whose second row is scheduled for time 10; one reads the clock
    at 5, the other at 15.  Both find the same first row.  The update of the
    first attempt takes that row; the update of the second attempt, run on
    the table the first one left, does not match zero rows, as the comment
    of [claimNextContactBatch] says it will: it matches one, the scheduled
    row, and the second attempt does not resolve to [null] but to a claim of
    its own.  Both attempts then hold [processing] rows of the one group. *)
Theorem racing_claims_both_take_rows :
  let r1 := row_of 1 1 1 pending None 0 in
  let r2 := row_of 2 1 2 pending (Some 10%Z) 0 in
  let s := [r1; r2] in
  let clkA := mkClock 5 6 7 in
  let clkB := mkClock 15 16 17 in
  claim_find 1 (now clkA) s = Some r1
  /\ claim_find 1 (now clkB) s = Some r1
  /\ exists sA cA sB cB,
       claim_take 1 clkA (fun _ => None) r1 s = (sA, Some cA)
       /\ batch cA = [row_of 1 1 1 processing None 7]
       /\ (claim_update 1 r1 (now clkB) (updTime clkB) sA).1 = 1%Z
       /\ claim_take 1 clkB (fun _ => None) r1 sA = (sB, Some cB)
       /\ batch cB = [row_of 2 1 2 processing (Some 10%Z) 17]
       /\ sB = [row_of 1 1 1 processing None 7;
                row_of 2 1 2 processing (Some 10%Z) 17].
Proof.
  intros r1 r2 s clkA clkB.
  split; [reflexivity|]. split; [reflexivity|].
  eexists _, _, _, _.
  split; [vm_compute; reflexivity|].
  split; [reflexivity|].
  split; [reflexivity|].
  split; [vm_compute; reflexivity|]. split; reflexivity.
Qed.

(** ** Message dispatch *)

Lemma existsb_id (i : Z) (s : Store) :
  existsb (fun d => (id d =? i)%Z) s = true <-> i ∈ List.map id s.
Proof.
  rewrite existsb_exists, list_elem_of_In, in_map_iff.
  split; intros (d & H1 & H2).
  - exists d. split; [|exact H1]. lia.
  - exists d. split; [exact H2|]. lia.
Qed.

Lemma update_present i data (s : Store) :
  i ∈ List.map id s ->
  update None i data s
  = Return (List.map (fun d => if (id d =? i)%Z then data d else d) s).
Proof. intros Hi. unfold update. apply existsb_id in Hi. by rewrite Hi. Qed.

Lemma map_if_same (c : Dispatch -> bool) (s : Store) :
  List.map (fun r => if c r then r else r) s = s.
Proof.
  induction s as [|r s IH]; [reflexivity|]. simpl. rewrite IH. by destruct (c r).
Qed.

(** One turn of the batch loop on a row that is in the table: the row gets
    the verdict of its own send, as far as the store takes the updates, and
    the trace holds its request and the delay. *)
Lemma send_dispatch_present cfg number cd gateway faults delayMs d (s : Store) :
  id d ∈ List.map id s ->
  send_dispatch cfg number cd gateway faults delayMs d s
  = (List.map (fun r => if (id r =? id d)%Z
                        then settle_row (send_verdict cfg number cd (gateway (id d)) d)
                               (faults (id d) sent) (faults (id d) failed) r
                        else r) s,
     (List.map (fun r => EvPost r.1 r.2) (requests_of cfg number cd d)
      ++ (if (0 <? delayMs)%Z then [EvSleep delayMs] else []))%list).
Proof.
  intros Hin. unfold send_dispatch, try_send, send_verdict, requests_of.
  assert (forall err,
            match update (faults (id d) failed) (id d) (mark_failed err) s with
            | Return s' => s'
            | Throw _ => s
            end
            = List.map (fun r => if (id r =? id d)%Z
                                 then match faults (id d) failed with
                                      | None => mark_failed err r
                                      | Some _ => r
                                      end
                                 else r) s) as Hfail.
  { intros err. destruct (faults (id d) failed) as [e|].
    - unfold update. symmetry. apply map_if_same.
    - by rewrite (update_present _ _ _ Hin). }
  destruct (build_request cfg d number cd (parsePayload cfg (message d)))
    as [[url body]|e]; cbv beta iota zeta; [|by rewrite Hfail].
  destruct (gateway (id d)) as [data|e]; cbv beta iota zeta; [|by rewrite Hfail].
  destruct (truthy (opt_get data "status")); cbv beta iota zeta;
    [|by rewrite Hfail].
  destruct (faults (id d) sent) as [e|] eqn:Hs.
  - change (update (Some e) (id d) mark_sent s) with (@Throw Store e).
    cbv beta iota zeta. by rewrite Hfail.
  - by rewrite (update_present _ _ _ Hin).
Qed.

Lemma settle_row_id v fs ff r : id (settle_row v fs ff r) = id r.
Proof. by destruct v, fs, ff. Qed.

Lemma map_id_settled (f : Dispatch -> Dispatch) (s : Store) :
  (forall r, id (f r) = id r) -> List.map id (List.map f s) = List.map id s.
Proof.
  intros Hf. induction s as [|r s IH]; [reflexivity|]. simpl. by rewrite Hf, IH.
Qed.

Lemma find_id_None (batch : list Dispatch) (i : Z) :
  i ∉ List.map id batch -> List.find (fun d => (id d =? i)%Z) batch = None.
Proof.
  induction batch as [|d batch IH]; [reflexivity|]. simpl. intros Hnotin.
  apply not_elem_of_cons in Hnotin as [Hne Hnotin].
  destruct (id d =? i)%Z eqn:E; [lia|]. by apply IH.
Qed.

(** The table and the trace after a whole batch. *)
Lemma send_batch_present cfg number cd gateway faults delayMs
    (batch : list Dispatch) :
  NoDup (List.map id batch) ->
  forall s : Store,
  (forall d, d ∈ batch -> id d ∈ List.map id s) ->
  send_batch cfg number cd gateway faults delayMs batch s
  = (List.map (row_after cfg number cd gateway faults batch) s,
     flat_map (fun d =>
       (List.map (fun r => EvPost r.1 r.2) (requests_of cfg number cd d)
        ++ (if (0 <? delayMs)%Z then [EvSleep delayMs] else []))%list) batch).
Proof.
  induction batch as [|d batch IH]; intros Hnd s Hin.
  - simpl. f_equal. unfold row_after. simpl. symmetry. apply map_id.
  - cbn [send_batch]. apply NoDup_cons in Hnd as [Hfresh Hnd].
    rewrite send_dispatch_present by (apply Hin; by left).
    rewrite IH; [|exact Hnd|].
    + cbn [flat_map]. f_equal. rewrite List.map_map. apply map_ext. intros r.
      unfold row_after. cbn [List.find].
      destruct (id d =? id r)%Z eqn:E.
      * assert (id r = id d) as Heq by lia.
        rewrite Z.eqb_sym in E. rewrite E.
        rewrite find_id_None; [reflexivity|].
        by rewrite settle_row_id, Heq.
      * rewrite Z.eqb_sym in E. by rewrite E.
    + intros d' Hd'. rewrite map_id_settled.
      * apply Hin. by right.
      * intros r. destruct (id r =? id d)%Z; [apply settle_row_id|reflexivity].
Qed.


Lemma sleeps_app (a b : list Event) : sleeps (a ++ b) = (sleeps a ++ sleeps b)%list.
Proof. apply flat_map_app. Qed.

Lemma claims_app (a b : list Event) : claims (a ++ b) = (claims a ++ claims b)%list.
Proof. apply flat_map_app. Qed.


Lemma sleeps_of_requests (l : list (string * list (string * JsVal))) :
  sleeps (List.map (fun r => EvPost r.1 r.2) l) = [].
Proof. induction l as [|[u b] l IH]; [reflexivity|]. exact IH. Qed.

Lemma claims_of_requests (l : list (string * list (string * JsVal))) :
  claims (List.map (fun r => EvPost r.1 r.2) l) = [].
Proof. induction l as [|[u b] l IH]; [reflexivity|]. exact IH. Qed.


Lemma send_trace_sleeps cfg number cd (delayMs : Z) (batch : list Dispatch) :
  sleeps (flat_map (fun d =>
            (List.map (fun r => EvPost r.1 r.2) (requests_of cfg number cd d)
             ++ (if (0 <? delayMs)%Z then [EvSleep delayMs] else []))%list) batch)
  = if (0 <? delayMs)%Z then List.map (fun _ => delayMs) batch else [].
Proof.
  induction batch as [|d batch IH]; [by destruct (0 <? delayMs)%Z|]. cbn [flat_map].
  rewrite !sleeps_app, sleeps_of_requests, IH.
  by destruct (0 <? delayMs)%Z.
Qed.

Lemma send_trace_claims cfg number cd (delayMs : Z) (batch : list Dispatch) :
  claims (flat_map (fun d =>
            (List.map (fun r => EvPost r.1 r.2) (requests_of cfg number cd d)
             ++ (if (0 <? delayMs)%Z then [EvSleep delayMs] else []))%list) batch)
  = [].
Proof.
  induction batch as [|d batch IH]; [reflexivity|]. cbn [flat_map].
  rewrite !claims_app, claims_of_requests, IH.
  by destruct (0 <? delayMs)%Z.
Qed.

Lemma find_id_Some (batch : list Dispatch) d :
  NoDup (List.map id batch) -> d ∈ batch ->
  List.find (fun d' => (id d' =? id d)%Z) batch = Some d.
Proof.
  induction batch as [|d0 batch IH]; intros Hnd Hd; [by apply not_elem_of_nil in Hd|].
  simpl in Hnd. apply NoDup_cons in Hnd as [Hfresh Hnd]. simpl.
  apply elem_of_cons in Hd as [->|Hd]; [by rewrite Z.eqb_refl|].
  destruct (id d0 =? id d)%Z eqn:E; [|by apply IH].
  exfalso. apply Hfresh. assert (id d0 = id d) as -> by lia.
  apply list_elem_of_In, in_map, list_elem_of_In, Hd.
Qed.

(** The trace of a batch does not depend on the table, on the answers of
    the gateway or on the faults of the store. *)
Lemma send_dispatch_trace cfg number cd gw faults delayMs d (s : Store) :
  (send_dispatch cfg number cd gw faults delayMs d s).2
  = (List.map (fun r => EvPost r.1 r.2) (requests_of cfg number cd d)
     ++ (if (0 <? delayMs)%Z then [EvSleep delayMs] else []))%list.
Proof.
  unfold send_dispatch, try_send, requests_of.
  destruct (build_request cfg d number cd (parsePayload cfg (message d)))
    as [[url body]|e]; [|reflexivity].
  destruct (gw (id d)) as [data|e]; [|reflexivity].
  destruct (truthy (opt_get data "status")); [|reflexivity].
  by destruct (update (faults (id d) sent) (id d) mark_sent s).
Qed.

Lemma send_batch_trace cfg number cd gw faults delayMs (msgs : list Dispatch) :
  forall s : Store,
  (send_batch cfg number cd gw faults delayMs msgs s).2
  = flat_map (fun d =>
      (List.map (fun r => EvPost r.1 r.2) (requests_of cfg number cd d)
       ++ (if (0 <? delayMs)%Z then [EvSleep delayMs] else []))%list) msgs.
Proof.
  induction msgs as [|d msgs IH]; intros s; [reflexivity|]. cbn [send_batch flat_map].
  pose proof (send_dispatch_trace cfg number cd gw faults delayMs d s) as Hd.
  destruct (send_dispatch cfg number cd gw faults delayMs d s) as [s1 ev1].
  specialize (IH s1).
  destruct (send_batch cfg number cd gw faults delayMs msgs s1) as [s2 ev2].
  simpl in *. by rewrite Hd, IH.
Qed.

(** ** Campaign loop *)

Lemma campaign_loop_app cfg cid (pre rest : list IterEnv) :
  forall (s s1 : Store) ev1,
  campaign_loop cfg cid pre s = (s1, ev1, Running) ->
  campaign_loop cfg cid (pre ++ rest) s
  = let '(s2, ev2, st) := campaign_loop cfg cid rest s1 in
    (s2, (ev1 ++ ev2)%list, st).
Proof.
  induction pre as [|env pre IH]; intros s s1 ev1 Hpre.
  - simpl in Hpre. injection Hpre as <- <-. simpl.
    by destruct (campaign_loop cfg cid rest s) as [[s2 ev2] st].
  - simpl in *. destruct (iteration cfg cid env s) as [[s' e'] o].
    destruct o; [discriminate|].
    destruct (campaign_loop cfg cid pre s') as [[s2 e2] st] eqn:E.
    injection Hpre as <- <- ->.
    rewrite (IH _ _ _ E).
    destruct (campaign_loop cfg cid rest s2) as [[s3 e3] st3].
    by rewrite app_assoc.
Qed.

(** A turn that reaches the claim engine: its trace starts with the claim. *)
Lemma iteration_claims cfg cid env campaign (s : Store) :
  findUnique env = Return (Some campaign) ->
  String.eqb (campaign_status campaign) "paused" = false ->
  claims (iteration cfg cid env s).1.2 = [cid].
Proof.
  intros Hrow Hstatus. unfold iteration. rewrite Hrow, Hstatus.
  destruct (claimNextContactBatch cid (clock env) (tx_fault env) (directory env) s)
    as [s1 [[claim|]|e]]; [|reflexivity|reflexivity].
  destruct (batch claim) as [|d0 rest] eqn:E; [reflexivity|].
  pose proof (send_batch_trace cfg (cleanNumber (claim_contact claim))
                (contactData claim) (gateway env) (update_fault env) (delayMs_of campaign)
                (d0 :: rest) s1) as Htrace.
  destruct (send_batch cfg (cleanNumber (claim_contact claim))
              (contactData claim) (gateway env) (update_fault env) (delayMs_of campaign)
              (d0 :: rest) s1) as [s2 evs].
  cbn [snd] in Htrace. subst evs. cbn [fst snd].
  change (claims (EvClaim cid :: ?l)) with (cid :: claims l).
  rewrite claims_app, send_trace_claims.
  by destruct (0 <? contactDelayMs_of campaign)%Z.
Qed.

(** C4. When the claim engine resolves to [null] in some turn of the loop,
    [processCampaign] returns in that turn without running any later one;
    and whenever [processCampaign] has returned, by whichever path, and
    however its promise settles, the campaign id is no longer in the
    RunningSet. *)
Theorem null_claim_ends_loop_and_frees_campaign cfg cid campaign0
    (pre post : list IterEnv) env campaign (s s1 : Store) ev1 (running : gset Z) :
  campaign_loop cfg cid pre s = (s1, ev1, Running) ->
  findUnique env = Return (Some campaign) ->
  String.eqb (campaign_status campaign) "paused" = false ->
  (claimNextContactBatch cid (clock env) (tx_fault env) (directory env) s1).2
  = Return None ->
  processCampaign cfg cid (Return (Some campaign0)) (pre ++ env :: post) s
  = ((claimNextContactBatch cid (clock env) (tx_fault env) (directory env) s1).1,
     (ev1 ++ [EvClaim cid])%list, Returned)
  /\ (cid ∉ snd (fst (campaign_task cfg cid (Return (Some campaign0))
                         (pre ++ env :: post) s running)))
  /\ (forall initial envs s0 running0,
        snd (campaign_task cfg cid initial envs s0 running0) = Returned ->
        cid ∉ snd (fst (campaign_task cfg cid initial envs s0 running0)))
  /\ (forall completion running0, cid ∉ settle cid completion running0).
Proof.
  intros Hpre Hrow Hstatus Hnull.
  assert (processCampaign cfg cid (Return (Some campaign0)) (pre ++ env :: post) s
          = ((claimNextContactBatch cid (clock env) (tx_fault env) (directory env) s1).1,
             (ev1 ++ [EvClaim cid])%list, Returned)) as Hrun.
  { simpl. rewrite (campaign_loop_app _ _ _ _ _ _ _ Hpre). simpl.
    unfold iteration. rewrite Hrow, Hstatus.
    destruct (claimNextContactBatch cid (clock env) (tx_fault env) (directory env) s1)
      as [s2 r]. simpl in Hnull. subst r. reflexivity. }
  assert (forall completion running0, cid ∉ settle cid completion running0) as Hsettle.
  { intros [u|e] running0; simpl; set_solver. }
  split; [exact Hrun|]. split; [|split; [|exact Hsettle]].
  - unfold campaign_task. rewrite Hrun. simpl. set_solver.
  - intros initial envs s0 running0. unfold campaign_task.
    destruct (processCampaign cfg cid initial envs s0) as [[s' evs] st].
    destruct st; simpl; [intros _; set_solver|discriminate].
Qed.

Lemma null_claim_ends_loop_and_frees_campaign_witness :
  let env := mkIterEnv (Return (Some (mkCampaign None None "active")))
               (mkClock 100 101 102) None (fun _ => None) sample_gateway no_fault in
  let s := [row 1 sent 10] in
  processCampaign sample_config 1 (Return (Some (mkCampaign None None "active")))
    ([] ++ env :: [env]) s
  = (s, [EvClaim 1], Returned)
  /\ 1%Z ∉ snd (fst (campaign_task sample_config 1
                        (Return (Some (mkCampaign None None "active")))
                        ([] ++ env :: [env]) s {[1%Z; 2%Z]})).
Proof.
  intros env s.
  destruct (null_claim_ends_loop_and_frees_campaign sample_config 1
              (mkCampaign None None "active") [] [env] env
              (mkCampaign None None "active") s s [] {[1%Z; 2%Z]}
              eq_refl eq_refl eq_refl eq_refl) as (Hrun & Hfree & _).
  split; [exact Hrun|exact Hfree].
Defined.

(** C9 (as amended). While the campaign row reads [paused], every turn of
    the loop sleeps 10000 ms and reads the row again: the table is not
    touched, nothing is claimed or sent, and the loop does not return,
    however many turns it runs; the first turn whose row does not read
    [paused] goes to the claim engine. *)
Theorem paused_campaign_only_waits cfg cid (envs : list IterEnv) (s : Store) :
  Forall (fun env => exists c, findUnique env = Return (Some c)
                               /\ campaign_status c = "paused") envs ->
  campaign_loop cfg cid envs s
  = (s, List.map (fun _ => EvSleep 10000) envs, Running)
  /\ claims (List.map (fun _ => EvSleep 10000) envs) = []
  /\ posts (List.map (fun _ => EvSleep 10000) envs) = []
  /\ (forall env c,
        findUnique env = Return (Some c) ->
        String.eqb (campaign_status c) "paused" = false ->
        claims (campaign_loop cfg cid (envs ++ [env]) s).1.2 = [cid]).
Proof.
  intros Hpaused.
  assert (campaign_loop cfg cid envs s
          = (s, List.map (fun _ => EvSleep 10000) envs, Running)) as Hloop.
  { induction Hpaused as [|env envs (c & Hrow & Hst) _ IH]; [reflexivity|].
    simpl. unfold iteration. rewrite Hrow, Hst. simpl. by rewrite IH. }
  assert (forall l : list IterEnv,
            claims (List.map (fun _ => EvSleep 10000) l) = []
            /\ posts (List.map (fun _ => EvSleep 10000) l) = []) as Hquiet.
  { intros l. induction l as [|x l [IH1 IH2]]; [by split|]. by split. }
  split; [exact Hloop|]. split; [apply Hquiet|]. split; [apply Hquiet|].
  intros env c Hrow Hstatus.
  rewrite (campaign_loop_app _ _ _ _ _ _ _ Hloop). cbn [campaign_loop].
  pose proof (iteration_claims cfg cid env c s Hrow Hstatus) as Hclaim.
  destruct (iteration cfg cid env s) as [[s1 ev1] o]. cbn [fst snd] in Hclaim.
  destruct o; cbn [fst snd]; rewrite claims_app, ?app_nil_r, Hclaim;
    by rewrite (proj1 (Hquiet envs)).
Qed.

Lemma paused_campaign_only_waits_witness :
  let env := mkIterEnv (Return (Some (mkCampaign None None "paused")))
               (mkClock 100 101 102) None (fun _ => None) sample_gateway no_fault in
  campaign_loop sample_config 1 [env; env; env] [row 1 pending 0]
  = ([row 1 pending 0], [EvSleep 10000; EvSleep 10000; EvSleep 10000], Running).
Proof.
  intros env.
  apply (paused_campaign_only_waits sample_config 1 [env; env; env]).
  repeat constructor; by exists (mkCampaign None None "paused").
Defined.

(** C9 as stated fails for a status that is neither active nor [paused]:
    with the row reading [completed] the turn claims the ready row and
    sends it. *)
Lemma non_active_status_counterexample :
  let env := mkIterEnv (Return (Some (mkCampaign None None "completed")))
               (mkClock 100 101 102) None (fun _ => None) sample_gateway no_fault in
  iteration sample_config 1 env [row 1 pending 0]
  = ([mark_sent (row 1 processing 102)],
     [EvClaim 1;
      EvPost "http://localhost:3001/s1/sendmessage"
        [("telnumber", JStr "5511999999999"); ("message", JStr "hello")];
      EvSleep 30000],
     Continue).
Proof. vm_compute. reflexivity. Qed.

(** C10. In whichever turn of the loop the campaign row is read with a null
    [delay], the delay between the messages is 30000 ms, slept after each
    message of the batch; and when it is read with a null [contactDelay],
    the delay between contacts is 0 and the turn sleeps only between
    messages. *)
Theorem default_delays_apply_each_turn cfg cid (pre : list IterEnv) env campaign
    claim (s s1 s2 : Store) ev1 :
  campaign_loop cfg cid pre s = (s1, ev1, Running) ->
  findUnique env = Return (Some campaign) ->
  String.eqb (campaign_status campaign) "paused" = false ->
  claimNextContactBatch cid (clock env) (tx_fault env) (directory env) s1
  = (s2, Return (Some claim)) ->
  batch claim <> [] ->
  exists s3 evs,
    campaign_loop cfg cid (pre ++ [env]) s = (s3, (ev1 ++ evs)%list, Running)
    /\ (delay campaign = None ->
          delayMs_of campaign = 30000%Z
          /\ sleeps evs
             = (List.map (fun _ => 30000%Z) (batch claim)
                ++ (if (0 <? contactDelayMs_of campaign)%Z
                    then [contactDelayMs_of campaign] else []))%list)
    /\ (contactDelay campaign = None ->
          contactDelayMs_of campaign = 0%Z
          /\ sleeps evs
             = (if (0 <? delayMs_of campaign)%Z
                then List.map (fun _ => delayMs_of campaign) (batch claim)
                else [])).
Proof.
  intros Hpre Hrow Hstatus Hclaim Hbatch.
  rewrite (campaign_loop_app _ _ _ _ _ _ _ Hpre). cbn [campaign_loop].
  unfold iteration. rewrite Hrow, Hstatus, Hclaim.
  destruct (batch claim) as [|d0 rest] eqn:E; [done|].
  pose proof (send_batch_trace cfg (cleanNumber (claim_contact claim))
                (contactData claim) (gateway env) (update_fault env) (delayMs_of campaign)
                (d0 :: rest) s2) as Htrace.
  destruct (send_batch cfg (cleanNumber (claim_contact claim))
              (contactData claim) (gateway env) (update_fault env) (delayMs_of campaign)
              (d0 :: rest) s2) as [s3 evs].
  cbn [snd] in Htrace. subst evs.
  eexists _, _. split; [by rewrite app_nil_r|].
  change (sleeps (EvClaim cid :: ?l)) with (sleeps l).
  rewrite sleeps_app, send_trace_sleeps.
  split.
  - intros Hd. unfold delayMs_of. rewrite Hd. split; [reflexivity|].
    f_equal. by destruct (0 <? contactDelayMs_of campaign)%Z.
  - intros Hc. unfold contactDelayMs_of. rewrite Hc. split; [reflexivity|].
    simpl. by rewrite app_nil_r.
Qed.

Lemma default_delays_apply_each_turn_witness :
  let paused := mkIterEnv (Return (Some (mkCampaign (Some 5%Z) (Some 7%Z) "paused")))
                  (mkClock 100 101 102) None (fun _ => None) sample_gateway no_fault in
  let env := mkIterEnv (Return (Some (mkCampaign None None "active")))
               (mkClock 100 101 102) None (fun _ => None) sample_gateway no_fault in
  let s := [row 1 pending 0; image_row pending 0] in
  exists s3 evs,
    campaign_loop sample_config 1 ([paused] ++ [env]) s
    = (s3, ([EvSleep 10000] ++ evs)%list, Running)
    /\ sleeps evs = [30000; 30000]%Z.
Proof.
  intros paused env s.
  destruct (default_delays_apply_each_turn sample_config 1 [paused] env
              (mkCampaign None None "active")
              (mkClaim "5511999999999" "s1" None
                 [row 1 processing 102; image_row processing 102])
              s s [row 1 processing 102; image_row processing 102]
              [EvSleep 10000])
    as (s3 & evs & Hloop & Hdelay & _);
    [reflexivity|reflexivity|reflexivity|vm_compute; reflexivity|discriminate|].
  exists s3, evs. split; [exact Hloop|].
  exact (proj2 (Hdelay eq_refl)).
Defined.

(** ** Orchestrator *)

Lemma launch_nothing (max : Z) (available : list Z) (running : gset Z) :
  running = running ∪ list_to_set (@nil Z)
  /\ (forall c, c ∈ @nil Z -> (c ∉ running) /\ c ∈ available)
  /\ NoDup (@nil Z)
  /\ ((0 < max)%Z -> (Z.of_nat (size running) <= max)%Z ->
      (Z.of_nat (size running) <= max)%Z)
  /\ ((0 < max)%Z -> (max <= Z.of_nat (size running))%Z -> @nil Z = []).
Proof.
  split; [set_solver|]. split; [intros c Hc; by apply not_elem_of_nil in Hc|].
  split; [constructor|]. by split.
Qed.

Lemma launch_spec (max : Z) (available : list Z) :
  forall running : gset Z,
  let running' := (launch max available running).1 in
  let launched := (launch max available running).2 in
  running' = running ∪ list_to_set launched
  /\ (forall c, c ∈ launched -> (c ∉ running) /\ c ∈ available)
  /\ NoDup launched
  /\ ((0 < max)%Z -> (Z.of_nat (size running) <= max)%Z ->
      (Z.of_nat (size running') <= max)%Z)
  /\ ((0 < max)%Z -> (max <= Z.of_nat (size running))%Z -> launched = []).
Proof.
  induction available as [|cid rest IH]; intros running; cbn zeta.
  - apply launch_nothing.
  - cbn [launch]. destruct (bool_decide (cid ∈ running)) eqn:Hin.
    + destruct (IH running) as (H1 & H2 & H3 & H4 & H5).
      split; [exact H1|]. split; [|by split].
      intros c Hc. split; [by apply H2|]. right. by apply H2.
    + apply bool_decide_eq_false in Hin.
      destruct ((0 <? max)%Z && (max <=? Z.of_nat (size running))%Z) eqn:Hcap.
      * apply launch_nothing.
      * destruct (IH ({[cid]} ∪ running)) as (H1 & H2 & H3 & H4 & H5).
        destruct (launch max rest ({[cid]} ∪ running)) as [running' launched].
        cbn [fst snd] in *. split; [|split; [|split; [|split]]].
        -- rewrite H1. set_solver.
        -- intros c Hc. apply elem_of_cons in Hc as [->|Hc]; [split; [done|by left]|].
           destruct (H2 c Hc) as [Hnot Hrest]. split; [set_solver|by right].
        -- constructor; [|exact H3]. intros Hc. destruct (H2 cid Hc). set_solver.
        -- intros Hmax Hsize. apply H4; [exact Hmax|].
           rewrite size_union by set_solver. rewrite size_singleton.
           apply andb_false_iff in Hcap. lia.
        -- intros Hmax Hsize. apply andb_false_iff in Hcap. lia.
Qed.

Lemma launch_one_of_two (a b : Z) (rest : list Z) :
  a <> b -> launch 1 (a :: b :: rest) ∅ = ({[a]}, [a]).
Proof.
  intros Hab. cbn [launch].
  rewrite bool_decide_eq_false_2 by set_solver. rewrite size_empty.
  assert ((0 <? 1)%Z && (1 <=? Z.of_nat 0)%Z = false) as -> by reflexivity.
  rewrite union_empty_r_L.
  rewrite bool_decide_eq_false_2 by set_solver. rewrite size_singleton.
  assert ((0 <? 1)%Z && (1 <=? Z.of_nat 1)%Z = true) as -> by reflexivity.
  reflexivity.
Qed.

(** A loop that ends only takes its id out of the RunningSet, so the set
    stays within the ceiling between ticks. *)
Lemma settle_within_ceiling cid completion (running : gset Z) (max : Z) :
  (Z.of_nat (size running) <= max)%Z ->
  (Z.of_nat (size (settle cid completion running)) <= max)%Z.
Proof.
  intros Hsize.
  assert (size (settle cid completion running) <= size running)%nat
    by (destruct completion; apply subseteq_size; set_solver).
  lia.
Qed.

Lemma revive_keeps_ready ttl t fault (s : Store) d :
  d ∈ s -> has_status pending d = true ->
  d ∈ (reviveStuckProcessing ttl t fault s).1.
Proof.
  intros Hd Hp. unfold reviveStuckProcessing. destruct fault; [exact Hd|].
  simpl. apply list_elem_of_In.
  assert (stuck (t - ttl) d = false) as Hfresh.
  { unfold stuck, has_status in *. apply bool_decide_eq_true in Hp.
    rewrite Hp. reflexivity. }
  apply in_map_iff. exists d. rewrite Hfresh. split; [reflexivity|].
  by apply list_elem_of_In.
Qed.

Lemma elem_of_distinct (l : list Z) x : x ∈ distinct l <-> x ∈ l.
Proof.
  induction l as [|y l IH]; [reflexivity|]. simpl.
  rewrite !elem_of_cons, <- IH, !list_elem_of_In, filter_In.
  split; [tauto|]. intros [->|H]; [by left|].
  destruct (decide (x = y)) as [->|Hne]; [by left|]. right. split; [exact H|].
  apply negb_true_iff. lia.
Qed.

Lemma filter_sublist_Z (p : Z -> bool) (l : list Z) :
  List.filter p l `sublist_of` l.
Proof.
  induction l as [|x l IH]; [constructor|]. simpl. destruct (p x); by constructor.
Qed.

Lemma NoDup_distinct (l : list Z) : NoDup (distinct l).
Proof.
  induction l as [|y l IH]; [constructor|]. simpl. constructor.
  - rewrite list_elem_of_In, filter_In. intros [_ H].
    apply negb_true_iff in H. lia.
  - eapply sublist_NoDup; [exact IH|apply filter_sublist_Z].
Qed.

Lemma elem_of_discover t (s : Store) c :
  c ∈ discover t s
  <-> exists d, d ∈ s /\ campaignId d = c
                /\ has_status pending d = true /\ ready t d = true.
Proof.
  unfold discover. rewrite elem_of_distinct, list_elem_of_In, in_map_iff.
  split.
  - intros (d & Hc & Hd). apply filter_In in Hd as [Hd Hp].
    apply andb_true_iff in Hp as [Hp Hr]. exists d.
    by rewrite list_elem_of_In.
  - intros (d & Hd & Hc & Hp & Hr). exists d. split; [exact Hc|].
    apply filter_In. rewrite <- list_elem_of_In. by rewrite Hp, Hr.
Qed.

(** The campaigns come in the order of their first ready row in the
    table. *)
Example discover_in_table_order :
  discover 0 [row_of 1 1 1 pending None 0; row_of 2 2 1 pending None 0;
              row_of 3 1 2 pending None 0]
  = [1; 2]%Z.
Proof. reflexivity. Qed.

Lemma ready_mono t t' d : (t <= t')%Z -> ready t d = true -> ready t' d = true.
Proof. unfold ready. destruct (scheduledAt d); [lia|done]. Qed.

(** C5. On a tick with a positive ceiling and a RunningSet within it: no
    campaign already in the set is launched and none is launched twice; the
    set after the tick is the set before plus the launched campaigns and
    does not exceed the ceiling, and nothing is launched when the set is
    already at the ceiling; a discovered campaign that was not launched is
    discovered again by the next tick, whose reviver leaves its ready rows
    in place; and with ceiling 1, nothing running and two campaigns
    discovered, exactly the first one is launched. *)
Theorem tick_launches_within_ceiling cfg env (s : Store) (running : gset Z) :
  (0 < MAX_CAMPAIGN_CONCURRENCY cfg)%Z ->
  (Z.of_nat (size running) <= MAX_CAMPAIGN_CONCURRENCY cfg)%Z ->
  let s1 := fst (fst (orchestrate cfg env s running)) in
  let running' := snd (fst (orchestrate cfg env s running)) in
  let launched := snd (orchestrate cfg env s running) in
  (forall c, c ∈ launched -> c ∉ running)
  /\ NoDup launched
  /\ running' = running ∪ list_to_set launched
  /\ (Z.of_nat (size running') <= MAX_CAMPAIGN_CONCURRENCY cfg)%Z
  /\ ((MAX_CAMPAIGN_CONCURRENCY cfg <= Z.of_nat (size running))%Z -> launched = [])
  /\ (forall c env2,
        c ∈ discover (tick_now env) s1 -> c ∉ launched ->
        (tick_now env <= tick_now env2)%Z ->
        c ∈ discover (tick_now env2)
              (fst (reviveStuckProcessing (PROCESSING_TTL_MS cfg)
                      (revive_now env2) (revive_fault env2) s1)))
  /\ (MAX_CAMPAIGN_CONCURRENCY cfg = 1%Z -> running = ∅ ->
      discover_fault env = None ->
      forall a b rest, discover (tick_now env) s1 = a :: b :: rest ->
      a <> b /\ launched = [a]).
Proof.
  intros Hmax Hsize. unfold orchestrate.
  destruct (reviveStuckProcessing (PROCESSING_TTL_MS cfg) (revive_now env)
              (revive_fault env) s) as [s1 r] eqn:Hrev.
  assert (forall c env2 t,
            c ∈ discover t s1 -> (t <= tick_now env2)%Z ->
            c ∈ discover (tick_now env2)
                  (fst (reviveStuckProcessing (PROCESSING_TTL_MS cfg)
                          (revive_now env2) (revive_fault env2) s1))) as Hagain.
  { intros c env2 t Hc Ht. apply elem_of_discover in Hc as (d & Hd & Hcid & Hp & Hr).
    apply elem_of_discover. exists d. split; [by apply revive_keeps_ready|].
    split; [exact Hcid|]. split; [exact Hp|]. by eapply ready_mono. }
  destruct (discover_fault env) as [e|].
  - cbn [fst snd].
    split; [intros c Hc; by apply not_elem_of_nil in Hc|].
    split; [constructor|]. split; [set_solver|]. split; [exact Hsize|].
    split; [done|]. split; [eauto|]. intros _ _ Hfault. discriminate.
  - pose proof (launch_spec (MAX_CAMPAIGN_CONCURRENCY cfg)
                  (discover (tick_now env) s1) running) as Hspec.
    destruct (launch (MAX_CAMPAIGN_CONCURRENCY cfg) (discover (tick_now env) s1)
                running) as [running' launched] eqn:Hlaunch.
    cbn [fst snd] in *. destruct Hspec as (H1 & H2 & H3 & H4 & H5).
    split; [intros c Hc; by apply H2|]. split; [exact H3|]. split; [exact H1|].
    split; [by apply H4|]. split; [by apply H5|]. split; [eauto|].
    intros Hone -> _ a b rest Hdisc.
    assert (a <> b) as Hab.
    { pose proof (NoDup_distinct
                    (List.map campaignId
                       (List.filter (fun d => has_status pending d
                                              && ready (tick_now env) d) s1))) as Hnd.
      fold (discover (tick_now env) s1) in Hnd. rewrite Hdisc in Hnd.
      apply NoDup_cons in Hnd as [Hnotin _]. set_solver. }
    split; [exact Hab|].
    rewrite Hdisc, Hone, (launch_one_of_two a b rest Hab) in Hlaunch.
    by injection Hlaunch as _ <-.
Qed.

Lemma tick_launches_within_ceiling_witness :
  let s := [row_of 1 1 1 pending None 0; row_of 2 2 1 pending None 0] in
  let env := mkTickEnv 5000 None 5000 None in
  snd (orchestrate sample_config env s ∅) = [1%Z]
  /\ (2%Z ∈ discover 8000
              (fst (reviveStuckProcessing 1800000 8000 None
                      (fst (fst (orchestrate sample_config env s ∅)))))).
Proof.
  intros s env.
  destruct (tick_launches_within_ceiling sample_config env s ∅)
    as (_ & _ & _ & _ & _ & Hagain & Hscenario).
  - simpl. lia.
  - rewrite size_empty. simpl. lia.
  - split.
    + exact (proj2 (Hscenario eq_refl eq_refl eq_refl 1%Z 2%Z [] eq_refl)).
    + apply (Hagain 2%Z (mkTickEnv 8000 None 8000 None)).
      * apply elem_of_discover. exists (row_of 2 2 1 pending None 0).
        split; [right; left|]. by repeat split.
      * rewrite (proj2 (Hscenario eq_refl eq_refl eq_refl 1%Z 2%Z [] eq_refl)).
        set_solver.
      * simpl. lia.
Defined.

(** ** Template rendering *)

Example render_example :
  renderTemplate (JStr "Hi {{nome}}, email {{email}}")
    (template_data (Some (mkProfile (Some "Ana") (Some "a@x.com") None)))
  = Return "Hi Ana, email a@x.com".
Proof. vm_compute. reflexivity. Qed.

Example render_missing_and_null :
  renderTemplate (JStr "a{{ telefone }}b{{empresa}}c{{nome}}")
    (template_data (Some (mkProfile (Some "{{email}}") (Some "a@x.com") None)))
  = Return "abc{{email}}".
Proof. vm_compute. reflexivity. Qed.

Example render_without_profile :
  renderTemplate (JStr "Hi {{nome}}!") (template_data None) = Return "Hi !".
Proof. vm_compute. reflexivity. Qed.

(** C8, the code at the failing input. The placeholder [{{constructor}}]
    names no field of the contact profile, yet it renders neither as the
    empty string nor as one of the profile's fields: the lookup finds the
    member that the object of template fields inherits, and its source text
    is what appears in the message. *)
Theorem inherited_key_renders_function_source contactData :
  renderTemplate (JStr "{{constructor}}") (template_data contactData)
  = Return "function Object() { [native code] }"
  /\ assoc "constructor" (template_data contactData) = None
  /\ renderTemplate (JStr "{{constructor}}") (template_data contactData)
     <> Return "".
Proof.
  split; [|split].
  - by destruct contactData.
  - reflexivity.
  - destruct contactData; vm_compute; discriminate.
Qed.

(** What the claim describes does hold for every key that is not a member
    of [Object.prototype]: a placeholder renders as the profile field the
    key names, and as the empty string when there is no such field or the
    field is null. *)
Lemma is_word_not_space c : is_word c = true -> is_space c = false.
Proof.
  destruct c as [[] [] [] [] [] [] [] []]; vm_compute; congruence.
Qed.

Lemma span_word_key (key : string) :
  forallb is_word (list_ascii_of_string key) = true ->
  span is_word (key ++ "}}") = (key, "}}").
Proof.
  induction key as [|c key IH]; [reflexivity|]. simpl.
  intros H. apply andb_true_iff in H as [-> H]. by rewrite IH.
Qed.

Lemma match_placeholder_key (key : string) :
  key <> "" -> forallb is_word (list_ascii_of_string key) = true ->
  match_placeholder ("{{" ++ key ++ "}}") = Some (key, "").
Proof.
  intros Hne Hword. unfold match_placeholder.
  change (strip_prefix "{{" ("{{" ++ key ++ "}}")) with (Some (key ++ "}}")).
  cbv beta iota.
  assert (span is_space (key ++ "}}") = ("", key ++ "}}")) as ->.
  { destruct key as [|c key]; [done|]. simpl in *.
    apply andb_true_iff in Hword as [Hc _].
    by rewrite (is_word_not_space c Hc). }
  rewrite (span_word_key key Hword).
  destruct (String.eqb key "") eqn:E; [by apply String.eqb_eq in E|].
  reflexivity.
Qed.

Lemma append_empty_r (s : string) : s ++ "" = s.
Proof.
  induction s as [|c s IH]; [reflexivity|].
  change (String c (s ++ "") = String c s). by rewrite IH.
Qed.

Lemma profile_field_value contactData field :
  (exists s, profile_field contactData field = JStr s)
  \/ profile_field contactData field = JNull
  \/ profile_field contactData field = JUndefined.
Proof.
  destruct contactData as [p|]; simpl; [|by right; right].
  destruct (field p); simpl; [left; eauto|by right; left].
Qed.

Lemma template_field_value contactData key v :
  assoc key (template_data contactData) = Some v ->
  (exists s, v = JStr s) \/ v = JNull \/ v = JUndefined.
Proof.
  unfold template_data. cbn [assoc]. intros H.
  destruct (String.eqb "nome" key);
    [injection H as <-; apply profile_field_value|].
  destruct (String.eqb "email" key);
    [injection H as <-; apply profile_field_value|].
  destruct (String.eqb "empresa" key);
    [injection H as <-; apply profile_field_value|discriminate].
Qed.

(** X6. For a key of word characters that is not a member of
    [Object.prototype], the placeholder alone renders as the profile field
    the key names, and as the empty string when the profile has no such
    field, the field is null, or there is no profile. *)
Lemma render_placeholder_field_or_empty contactData (key : string) :
  key <> "" -> forallb is_word (list_ascii_of_string key) = true ->
  Object_prototype key = None ->
  renderTemplate (JStr ("{{" ++ key ++ "}}")) (template_data contactData)
  = Return (match assoc key (template_data contactData) with
            | Some (JStr v) => v
            | _ => ""
            end).
Proof.
  intros Hne Hword Hproto. unfold renderTemplate.
  change (truthy (JStr ("{{" ++ key ++ "}}"))) with true. cbn [negb].
  unfold replace_placeholders. cbn [replace_all].
  rewrite (match_placeholder_key key Hne Hword).
  assert (forall n f, replace_all n f "" = "") as Hnil by (by intros [|n] f).
  rewrite Hnil, append_empty_r. f_equal. unfold obj_get. rewrite Hproto.
  destruct (assoc key (template_data contactData)) as [v|] eqn:E; [|reflexivity].
  by destruct (template_field_value _ _ _ E) as [[s ->]|[->| ->]].
Qed.

(** * Further properties *)

(** ** Payloads, file names, numbers *)

(** X1. Whatever the stored message is, [parsePayload] gives an object whose
    [type] is truthy; and a message that is not JSON, or is JSON of another
    shape, becomes a text payload carrying the message itself. *)
Theorem parsePayload_is_typed_object cfg (raw : string) :
  (exists fields, parsePayload cfg raw = JObj fields
                  /\ truthy (obj_get fields "type") = true)
  /\ (JSON_parse cfg raw = None -> parsePayload cfg raw = text_payload raw)
  /\ (forall v, JSON_parse cfg raw = Some v ->
        truthy (opt_get v "type") = false ->
        parsePayload cfg raw = text_payload raw).
Proof.
  unfold parsePayload. split; [|split].
  - destruct (JSON_parse cfg raw) as [obj|]; [|by eexists].
    destruct obj as [| |b|n|str|items|fields|f]; simpl;
      try (by eexists); try (destruct b; by eexists);
      try (destruct (num_truthy n); by eexists);
      try (destruct (negb _); by eexists).
    destruct (truthy (obj_get fields "type")) eqn:E; [|by eexists].
    by exists fields.
  - by intros ->.
  - intros v -> Hv. rewrite Hv. by rewrite !andb_false_r.
Qed.

Lemma parsePayload_is_typed_object_witness :
  parsePayload sample_config "hello" = text_payload "hello".
Proof.
  by apply (proj1 (proj2 (parsePayload_is_typed_object sample_config "hello"))).
Defined.

Lemma before_first_no_char c (s : string) : has_char c (before_first c s) = false.
Proof.
  induction s as [|x s IH]; [reflexivity|]. simpl.
  destruct (Ascii.eqb x c) eqn:E; [reflexivity|].
  unfold has_char in *. simpl. rewrite IH, Ascii.eqb_sym, E. reflexivity.
Qed.

Lemma after_last_no_char c (s : string) : has_char c (after_last c s) = false.
Proof.
  induction s as [|x s IH]; [reflexivity|]. simpl.
  destruct (existsb (Ascii.eqb c) (list_ascii_of_string s)) eqn:E; [exact IH|].
  destruct (Ascii.eqb x c) eqn:Ex; [exact E|].
  unfold has_char. simpl. by rewrite E, Ascii.eqb_sym, Ex.
Qed.

Lemma after_last_keeps_absent c c' (s : string) :
  has_char c' s = false -> has_char c' (after_last c s) = false.
Proof.
  induction s as [|x s IH]; [done|]. unfold has_char in *. simpl.
  intros H. apply orb_false_iff in H as [Hx Hs].
  destruct (existsb (Ascii.eqb c) (list_ascii_of_string s)); [by apply IH|].
  destruct (Ascii.eqb x c); [exact Hs|]. simpl. by rewrite Hx, Hs.
Qed.

(** X2. The file name [filenameFromUrl] gives is never empty when the
    fallback is not; and when it is taken from the url it holds neither a
    slash nor a question mark. *)
Theorem filenameFromUrl_is_a_file_name (u : JsVal) (fallback : string) :
  fallback <> "" ->
  filenameFromUrl u fallback <> ""
  /\ (filenameFromUrl u fallback = fallback
      \/ (has_char "/" (filenameFromUrl u fallback) = false
          /\ has_char "?" (filenameFromUrl u fallback) = false)).
Proof.
  intros Hfb. unfold filenameFromUrl.
  destruct u as [| |b|n|s|items|fields|f]; try (split; [exact Hfb|by left]).
  destruct (String.eqb (after_last "/" (before_first "?" s)) "") eqn:E.
  - split; [exact Hfb|by left].
  - split; [intros H; rewrite H in E; discriminate|]. right. split.
    + apply after_last_no_char.
    + apply after_last_keeps_absent, before_first_no_char.
Qed.

Lemma filenameFromUrl_is_a_file_name_witness :
  filenameFromUrl (JStr "http://cdn/a/") "imagem.jpg" <> ""
  /\ filenameFromUrl (JStr "http://cdn/a/pic.jpg?v=2/x") "imagem.jpg" = "pic.jpg".
Proof.
  split; [|reflexivity].
  by apply (filenameFromUrl_is_a_file_name (JStr "http://cdn/a/") "imagem.jpg").
Defined.

Lemma filter_idem {A} (p : A -> bool) (l : list A) :
  List.filter p (List.filter p l) = List.filter p l.
Proof.
  induction l as [|x l IH]; [reflexivity|]. simpl.
  destruct (p x) eqn:E; [|exact IH]. simpl. by rewrite E, IH.
Qed.

Lemma filter_all {A} (p : A -> bool) (l : list A) :
  forallb p l = true -> List.filter p l = l.
Proof.
  induction l as [|x l IH]; [reflexivity|]. simpl.
  intros H. apply andb_true_iff in H as [-> H]. by rewrite IH.
Qed.

Lemma forallb_filter {A} (p : A -> bool) (l : list A) :
  forallb p (List.filter p l) = true.
Proof.
  induction l as [|x l IH]; [reflexivity|]. simpl.
  destruct (p x) eqn:E; [|exact IH]. simpl. by rewrite E, IH.
Qed.

(** X3. The number the worker sends to the gateway holds digits only,
    cleaning it again changes nothing, and a contact that already is all
    digits is sent as it is. *)
Theorem cleanNumber_digits_only (contact : string) :
  all_chars is_digit (cleanNumber contact) = true
  /\ cleanNumber (cleanNumber contact) = cleanNumber contact
  /\ (all_chars is_digit contact = true -> cleanNumber contact = contact).
Proof.
  unfold cleanNumber, all_chars. rewrite !list_ascii_of_string_of_list_ascii.
  split; [apply forallb_filter|]. split.
  - by rewrite filter_idem.
  - intros H. rewrite (filter_all _ _ H). apply string_of_list_ascii_of_string.
Qed.

Lemma cleanNumber_digits_only_witness :
  cleanNumber "5511999999999" = "5511999999999".
Proof.
  by apply (proj2 (proj2 (cleanNumber_digits_only "5511999999999"))).
Defined.

(** ** Template rendering, in general *)

Lemma append_cons c (s t : string) : String c s ++ t = String c (s ++ t).
Proof. reflexivity. Qed.

Lemma length_append (s t : string) :
  String.length (s ++ t) = (String.length s + String.length t)%nat.
Proof.
  induction s as [|c s IH]; [reflexivity|].
  rewrite append_cons. simpl. by rewrite IH.
Qed.

Lemma span_length p (s a b : string) :
  span p s = (a, b) ->
  String.length s = (String.length a + String.length b)%nat.
Proof.
  revert a b. induction s as [|c s IH]; intros a b; simpl.
  - by intros [= <- <-].
  - destruct (p c).
    + destruct (span p s) as [a' b'] eqn:E. intros [= <- <-].
      simpl. by rewrite (IH a' b' eq_refl).
    + by intros [= <- <-].
Qed.

Lemma strip_prefix_length (pre s r : string) :
  strip_prefix pre s = Some r ->
  String.length s = (String.length pre + String.length r)%nat.
Proof.
  revert s. induction pre as [|a pre IH]; intros s; simpl.
  - by intros [= <-].
  - destruct s as [|b s]; [done|]. destruct (Ascii.eqb a b); [|done].
    intros H. simpl. by rewrite (IH s H).
Qed.

(** A match consumes at least the four braces and one character of key. *)
Lemma match_placeholder_shorter (s key rest : string) :
  match_placeholder s = Some (key, rest) ->
  (String.length rest < String.length s)%nat.
Proof.
  unfold match_placeholder.
  destruct (strip_prefix "{{" s) as [s1|] eqn:E1; [|done].
  destruct (span is_space s1) as [w1 s2] eqn:E2.
  destruct (span is_word s2) as [k s3] eqn:E3.
  destruct (String.eqb k ""); [done|].
  destruct (span is_space s3) as [w2 s4] eqn:E4.
  destruct (strip_prefix "}}" s4) as [r|] eqn:E5; [|done].
  intros [= <- <-].
  apply strip_prefix_length in E1, E5. apply span_length in E2, E3, E4.
  simpl in *. lia.
Qed.

(** More fuel than the text is long changes nothing. *)
Lemma replace_all_fuel f (n : nat) :
  forall (m : nat) (s : string),
  (String.length s < n)%nat -> (String.length s < m)%nat ->
  replace_all n f s = replace_all m f s.
Proof.
  induction n as [|n IH]; intros m s Hn Hm; [lia|].
  destruct m as [|m]; [lia|]. simpl.
  destruct (match_placeholder s) as [[key rest]|] eqn:E.
  - apply match_placeholder_shorter in E. f_equal. apply IH; lia.
  - destruct s as [|c s]; [reflexivity|]. simpl in *. f_equal. apply IH; lia.
Qed.

Lemma match_placeholder_other c (s : string) :
  Ascii.eqb "{" c = false -> match_placeholder (String c s) = None.
Proof. intros H. unfold match_placeholder. cbn [strip_prefix]. by rewrite H. Qed.

(** Text without an opening brace is copied. *)
Lemma replace_all_plain f (pre : string) :
  has_char "{" pre = false ->
  forall (n : nat) (rest : string),
  replace_all (String.length pre + n) f (pre ++ rest)
  = pre ++ replace_all n f rest.
Proof.
  induction pre as [|c pre IH]; intros Hpre n rest; [reflexivity|].
  unfold has_char in Hpre. simpl in Hpre.
  apply orb_false_iff in Hpre as [Hc Hpre].
  rewrite !append_cons. simpl.
  rewrite (match_placeholder_other c _ Hc). f_equal. by apply IH.
Qed.

Lemma renderTemplate_string (s : string) data :
  renderTemplate (JStr s) data
  = Return (replace_placeholders
              (fun key => ToString (coalesce (obj_get data key) (JStr ""))) s).
Proof. unfold renderTemplate. by destruct s. Qed.

Lemma renderTemplate_plain (s : string) data :
  has_char "{" s = false -> renderTemplate (JStr s) data = Return s.
Proof.
  intros Hs. rewrite renderTemplate_string. f_equal.
  unfold replace_placeholders.
  pose proof (replace_all_plain
                (fun key => ToString (coalesce (obj_get data key) (JStr "")))
                s Hs 1 "") as H.
  rewrite !append_empty_r in H. simpl in H.
  etransitivity; [|exact H]. apply replace_all_fuel; lia.
Qed.

(** X4. A text without an opening brace is rendered as it is, whatever the
    contact. *)
Theorem renderTemplate_plain_text (s : string) data :
  has_char "{" s = false -> renderTemplate (JStr s) data = Return s.
Proof. apply renderTemplate_plain. Qed.

Lemma renderTemplate_plain_text_witness :
  renderTemplate (JStr "Oi, tudo bem? }} 100%") (template_data None)
  = Return "Oi, tudo bem? }} 100%".
Proof. by apply renderTemplate_plain_text. Defined.

Lemma span_stop p c (s : string) :
  p c = false -> span p (String c s) = ("", String c s).
Proof. intros H. simpl. by rewrite H. Qed.

Lemma span_app p (a b : string) :
  all_chars p a = true -> span p b = ("", b) -> span p (a ++ b) = (a, b).
Proof.
  induction a as [|c a IH]; intros Ha Hb; [exact Hb|].
  unfold all_chars in Ha. simpl in Ha. apply andb_true_iff in Ha as [Hc Ha].
  rewrite append_cons. simpl. by rewrite Hc, (IH Ha Hb).
Qed.

Lemma is_space_not_word c : is_space c = true -> is_word c = false.
Proof.
  intros H. destruct (is_word c) eqn:E; [|reflexivity].
  apply is_word_not_space in E. congruence.
Qed.

Lemma span_word_stops_at_space_or_brace (sp rest : string) :
  all_chars is_space sp = true ->
  span is_word (sp ++ "}}" ++ rest) = ("", sp ++ "}}" ++ rest).
Proof.
  destruct sp as [|c sp]; [reflexivity|]. intros H.
  unfold all_chars in H. simpl in H. apply andb_true_iff in H as [Hc _].
  rewrite append_cons. apply span_stop. by apply is_space_not_word.
Qed.

(** A placeholder at the start of a text, with optional blanks around its
    key, matches as a whole. *)
Lemma match_placeholder_spaced (sp1 key sp2 rest : string) :
  all_chars is_space sp1 = true -> key <> "" ->
  all_chars is_word key = true -> all_chars is_space sp2 = true ->
  match_placeholder ("{{" ++ sp1 ++ key ++ sp2 ++ "}}" ++ rest)
  = Some (key, rest).
Proof.
  intros Hsp1 Hne Hkey Hsp2. unfold match_placeholder.
  change (strip_prefix "{{" ("{{" ++ sp1 ++ key ++ sp2 ++ "}}" ++ rest))
    with (Some (sp1 ++ key ++ sp2 ++ "}}" ++ rest)).
  cbv beta iota.
  rewrite (span_app is_space sp1 (key ++ sp2 ++ "}}" ++ rest) Hsp1).
  2:{ destruct key as [|c key]; [done|]. rewrite append_cons. apply span_stop.
      unfold all_chars in Hkey. simpl in Hkey.
      apply andb_true_iff in Hkey as [Hc _]. by apply is_word_not_space. }
  rewrite (span_app is_word key (sp2 ++ "}}" ++ rest) Hkey
             (span_word_stops_at_space_or_brace sp2 rest Hsp2)).
  destruct (String.eqb key "") eqn:E; [by apply String.eqb_eq in E|].
  rewrite (span_app is_space sp2 ("}}" ++ rest) Hsp2 eq_refl).
  reflexivity.
Qed.

Lemma replace_all_match f (n : nat) (s key rest : string) :
  match_placeholder s = Some (key, rest) ->
  replace_all (S n) f s = f key ++ replace_all n f rest.
Proof. intros H. simpl. by rewrite H. Qed.

(** X5. Rendering goes from left to right and never looks at what it has
    put in: a text made of a part without opening brace, a placeholder
    (blanks around the key allowed) and a rest renders as that part, the
    value of the key, and the rendering of the rest. *)
Theorem renderTemplate_left_to_right (pre sp1 key sp2 post : string) data r :
  has_char "{" pre = false ->
  all_chars is_space sp1 = true -> key <> "" ->
  all_chars is_word key = true -> all_chars is_space sp2 = true ->
  renderTemplate (JStr post) data = Return r ->
  renderTemplate (JStr (pre ++ "{{" ++ sp1 ++ key ++ sp2 ++ "}}" ++ post)) data
  = Return (pre ++ ToString (coalesce (obj_get data key) (JStr "")) ++ r).
Proof.
  intros Hpre Hsp1 Hne Hkey Hsp2. rewrite !renderTemplate_string.
  intros [= <-]. f_equal. unfold replace_placeholders.
  set (f := fun key => ToString (coalesce (obj_get data key) (JStr ""))).
  set (m := "{{" ++ sp1 ++ key ++ sp2 ++ "}}" ++ post).
  rewrite (replace_all_fuel f _ (String.length pre + S (String.length m)) (pre ++ m))
    by (rewrite length_append; lia).
  rewrite (replace_all_plain f pre Hpre). f_equal.
  rewrite (replace_all_match f (String.length m) m key post)
    by (by apply match_placeholder_spaced).
  f_equal. apply replace_all_fuel; [|lia].
  pose proof (match_placeholder_shorter m key post
                (match_placeholder_spaced sp1 key sp2 post Hsp1 Hne Hkey Hsp2)).
  lia.
Qed.

Lemma renderTemplate_left_to_right_witness :
  renderTemplate (JStr ("Hi " ++ "{{" ++ " " ++ "nome" ++ "" ++ "}}" ++ "!"))
    (template_data (Some (mkProfile (Some "{{email}}") None None)))
  = Return ("Hi " ++ "{{email}}" ++ "!").
Proof.
  apply (renderTemplate_left_to_right "Hi " " " "nome" "" "!"
           (template_data (Some (mkProfile (Some "{{email}}") None None))) "!");
    try reflexivity; discriminate.
Defined.

Lemma render_placeholder_field_or_empty_witness :
  renderTemplate (JStr ("{{" ++ "telefone" ++ "}}"))
    (template_data (Some (mkProfile (Some "Ana") None None)))
  = Return "".
Proof.
  apply (render_placeholder_field_or_empty
           (Some (mkProfile (Some "Ana") None None)) "telefone");
    [discriminate|reflexivity|reflexivity].
Defined.

(** ** Reviver and claim engine, together *)

(** X7. Running the reviver at a time [t1] and again at a later time [t2]
    leaves the table that one run at [t2] leaves; in particular a second run
    at the same time changes nothing. *)
Theorem revive_twice_is_revive_once ttl t1 t2 (s : Store) :
  (t1 <= t2)%Z ->
  (reviveStuckProcessing ttl t2 None (reviveStuckProcessing ttl t1 None s).1).1
  = (reviveStuckProcessing ttl t2 None s).1.
Proof.
  intros Ht. unfold reviveStuckProcessing, updateMany. simpl.
  rewrite List.map_map. apply map_ext. intros d.
  unfold stuck, has_status.
  destruct (bool_decide (status d = processing)) eqn:Hp; simpl.
  - destruct (updatedAt d <? t1 - ttl)%Z eqn:H1; simpl.
    + assert ((updatedAt d <? t2 - ttl)%Z = true) as -> by lia. reflexivity.
    + rewrite Hp. reflexivity.
  - rewrite Hp. reflexivity.
Qed.

Lemma revive_twice_is_revive_once_witness :
  let s := [row 1 processing 10; row 2 processing 2500; row 3 sent 10] in
  (reviveStuckProcessing 1000 4000 None (reviveStuckProcessing 1000 3000 None s).1).1
  = (reviveStuckProcessing 1000 4000 None s).1.
Proof. intros s. apply revive_twice_is_revive_once. lia. Defined.

Lemma updateMany_count_zero where_ data (s : Store) :
  (updateMany where_ data s).1 = 0%Z -> (updateMany where_ data s).2 = s.
Proof.
  unfold updateMany. simpl. intros Hcount.
  assert (List.filter where_ s = []) as Hnil
    by (destruct (List.filter where_ s); [reflexivity|simpl in Hcount; lia]).
  clear Hcount. induction s as [|d s IH]; [reflexivity|]. simpl in *.
  destruct (where_ d); [discriminate|]. f_equal. by apply IH.
Qed.

(** X8. Whenever the claim engine does not resolve to a claim, because it
    found nothing, lost the rows to someone else or met a transaction
    error, the table is as it was. *)
Theorem claim_without_claim_changes_nothing cid clk fault dir (s : Store) :
  (forall c, (claimNextContactBatch cid clk fault dir s).2 <> Return (Some c)) ->
  (claimNextContactBatch cid clk fault dir s).1 = s.
Proof.
  unfold claimNextContactBatch. destruct fault as [e|]; [reflexivity|].
  unfold claim_tx. destruct (claim_find cid (now clk) s) as [first|]; [|reflexivity].
  rewrite claim_take_eq. cbv zeta.
  destruct ((claim_update cid first (now clk) (updTime clk) s).1 =? 0)%Z eqn:E.
  - intros _. simpl. apply updateMany_count_zero. unfold claim_update in E. lia.
  - simpl. intros H. by edestruct H.
Qed.

Lemma claim_without_claim_changes_nothing_witness :
  (claimNextContactBatch 1 (mkClock 100 101 102)
     (Some (Error "Transaction API error")) (fun _ => None)
     [row 1 pending 0]).1
  = [row 1 pending 0].
Proof. apply claim_without_claim_changes_nothing. intros c. discriminate. Defined.

Lemma claim_where_campaign cid first t d :
  claim_where cid first t d = true ->
  campaignId d = cid /\ status d = pending.
Proof.
  unfold claim_where, same_group, has_status. rewrite !andb_true_iff.
  intros [[[[Hc _] _] Hp] _]. apply bool_decide_eq_true in Hp. split; [lia|done].
Qed.

(** The table after a claim is the table before, or the table after the
    conditional update for some first row. *)
Lemma claim_store_shape cid clk fault dir (s : Store) :
  (claimNextContactBatch cid clk fault dir s).1 = s
  \/ exists first,
       (claimNextContactBatch cid clk fault dir s).1
       = (claim_update cid first (now clk) (updTime clk) s).2.
Proof.
  unfold claimNextContactBatch. destruct fault as [e|]; [by left|].
  unfold claim_tx. destruct (claim_find cid (now clk) s) as [first|]; [|by left].
  right. exists first. rewrite claim_take_eq. cbv zeta.
  by destruct ((claim_update cid first (now clk) (updTime clk) s).1 =? 0)%Z.
Qed.

(** X9. A claim for one campaign changes no row of another campaign and no
    row that is not [pending], whatever it resolves to; the table keeps its
    rows in place. *)
Theorem claim_leaves_other_rows cid clk fault dir (s : Store) :
  List.length (claimNextContactBatch cid clk fault dir s).1 = List.length s
  /\ forall i d, s !! i = Some d ->
       campaignId d <> cid \/ status d <> pending ->
       (claimNextContactBatch cid clk fault dir s).1 !! i = Some d.
Proof.
  destruct (claim_store_shape cid clk fault dir s) as [->|[first ->]]; [by split|].
  unfold claim_update. split.
  - apply updateMany_length.
  - intros i d Hd Hother. rewrite updateMany_lookup, Hd. simpl.
    destruct (claim_where cid first (now clk) d) eqn:E; [|reflexivity].
    apply claim_where_campaign in E as [? ?]. tauto.
Qed.

Lemma claim_leaves_other_rows_witness :
  let s := [row 1 pending 0; row_of 2 7 1 pending None 0; row 3 sent 0] in
  (claimNextContactBatch 1 (mkClock 100 101 102) None (fun _ => None) s).1 !! 1%nat
  = Some (row_of 2 7 1 pending None 0).
Proof.
  intros s.
  apply (proj2 (claim_leaves_other_rows 1 (mkClock 100 101 102) None
                  (fun _ => None) s) 1%nat); [reflexivity|].
  left. simpl. lia.
Defined.

Lemma claim_ready_is_some cid clk dir (s : Store) :
  (exists d, d ∈ s /\ pending_ready cid (now clk) d = true) ->
  exists first,
    claim_find cid (now clk) s = Some first
    /\ claimNextContactBatch cid clk None dir s
       = ((claim_update cid first (now clk) (updTime clk) s).2,
          Return (Some (mkClaim (contact first) (sessionName first)
                          (dir (contact first))
                          (claim_read cid first (claimTime clk)
                             (claim_update cid first (now clk) (updTime clk) s).2)))).
Proof.
  intros Hready.
  destruct (claim_find_least cid (now clk) s Hready) as (first & Hfind & Hin & Hp & _).
  exists first. split; [exact Hfind|].
  unfold claimNextContactBatch, claim_tx. rewrite Hfind, claim_take_eq. cbv zeta.
  by rewrite (claim_update_count_pos cid first (now clk) (updTime clk) s Hin
                (pending_ready_claim_where _ _ _ Hp)).
Qed.

Lemma set_status_same d : set_status (status d) d = d.
Proof. by destruct d. Qed.

(** X10. A batch that was claimed and then abandoned is handed out again:
    once the reviver runs later than the TTL after the claim, every row the
    claim had taken is [pending] again with its message untouched, and the
    next claim for the campaign resolves to a claim. *)
Theorem abandoned_claim_is_claimed_again cid clk clk2 dir ttl t (s : Store) :
  (exists d, d ∈ s /\ pending_ready cid (now clk) d = true) ->
  (updTime clk < t - ttl)%Z ->
  (now clk <= now clk2)%Z ->
  let s1 := (claimNextContactBatch cid clk None dir s).1 in
  let s2 := (reviveStuckProcessing ttl t None s1).1 in
  (exists first, claim_find cid (now clk) s = Some first
     /\ forall d, d ∈ s -> claim_where cid first (now clk) d = true ->
          exists d', d' ∈ s2 /\ status d' = pending /\ same_message d' d)
  /\ exists c, (claimNextContactBatch cid clk2 None dir s2).2 = Return (Some c).
Proof.
  intros Hready Httl Hnow. cbv zeta.
  destruct (claim_ready_is_some cid clk dir s Hready) as (first & Hfind & ->).
  cbn [fst].
  assert (forall d, d ∈ s -> claim_where cid first (now clk) d = true ->
            set_updatedAt (updTime clk) d
              ∈ (reviveStuckProcessing ttl t None
                   (claim_update cid first (now clk) (updTime clk) s).2).1) as Hback.
  { intros d Hd Hw. unfold reviveStuckProcessing, claim_update, updateMany.
    cbn [fst snd]. rewrite List.map_map. apply list_elem_of_In, in_map_iff.
    exists d. split; [|by apply list_elem_of_In]. rewrite Hw.
    assert (stuck (t - ttl) (set_updatedAt (updTime clk) (set_status processing d))
            = true) as ->.
    { unfold stuck, has_status. simpl. lia. }
    apply claim_where_campaign in Hw as [_ Hp].
    rewrite <- (set_status_same d) at 2. by rewrite Hp. }
  split.
  { exists first. split; [exact Hfind|]. intros d Hd Hw.
    exists (set_updatedAt (updTime clk) d). split; [by apply Hback|].
    apply claim_where_campaign in Hw as [_ Hp]. by repeat split. }
  destruct (claim_find_least cid (now clk) s Hready) as (f & Hf & Hin & Hp & _).
  rewrite Hfind in Hf. injection Hf as <-.
  destruct (claim_ready_is_some cid clk2 dir
              (reviveStuckProcessing ttl t None
                 (claim_update cid first (now clk) (updTime clk) s).2).1)
    as (first2 & _ & ->); [|by eexists].
  exists (set_updatedAt (updTime clk) first). split.
  - apply Hback; [exact Hin|by apply pending_ready_claim_where].
  - unfold pending_ready in *. rewrite !andb_true_iff in *.
    destruct Hp as [[Hc Hs] Hr]. repeat split; try done.
    by apply (ready_mono (now clk)).
Qed.

Lemma abandoned_claim_is_claimed_again_witness :
  let s := [row 1 pending 0; row 2 pending 0] in
  let s1 := (claimNextContactBatch 1 (mkClock 100 101 102) None (fun _ => None) s).1 in
  let s2 := (reviveStuckProcessing 1000 5000 None s1).1 in
  exists c, (claimNextContactBatch 1 (mkClock 5001 5002 5003) None
               (fun _ => None) s2).2 = Return (Some c).
Proof.
  intros s s1 s2.
  apply (abandoned_claim_is_claimed_again 1 (mkClock 100 101 102)
           (mkClock 5001 5002 5003) (fun _ => None) 1000 5000 s).
  - exists (row 1 pending 0). split; [by left|reflexivity].
  - simpl. lia.
  - simpl. lia.
Defined.

(** *** Claims for different campaigns *)

Lemma claim_map_only_campaign cid first t stamp :
  only_campaign cid
    (fun d => if claim_where cid first t d
              then set_updatedAt stamp (set_status processing d) else d).
Proof.
  intros d. destruct (claim_where cid first t d) eqn:E; [|by split].
  split; [reflexivity|]. apply claim_where_campaign in E as [? _]. tauto.
Qed.

Lemma only_campaign_id cid : only_campaign cid (fun d => d).
Proof. by intros d. Qed.

Lemma only_campaign_commute c1 c2 g1 g2 d :
  c1 <> c2 -> only_campaign c1 g1 -> only_campaign c2 g2 ->
  g1 (g2 d) = g2 (g1 d).
Proof.
  intros Hne H1 H2. destruct (decide (campaignId d = c1)) as [Hd|Hd].
  - rewrite (proj2 (H2 d)) by congruence.
    rewrite (proj2 (H2 (g1 d))); [reflexivity|].
    rewrite (proj1 (H1 d)). congruence.
  - rewrite (proj2 (H1 d) Hd).
    rewrite (proj2 (H1 (g2 d))); [reflexivity|].
    by rewrite (proj1 (H2 d)).
Qed.

(** A filter that selects rows of one campaign does not see what is done
    to the rows of another. *)
Lemma filter_foreign c1 c2 g (p : Dispatch -> bool) (s : Store) :
  c1 <> c2 -> only_campaign c2 g ->
  (forall d, campaignId d <> c1 -> p d = false) ->
  List.filter p (List.map g s) = List.filter p s.
Proof.
  intros Hne Hg Hp. induction s as [|d s IH]; [reflexivity|]. simpl.
  destruct (decide (campaignId d = c2)) as [Hd|Hd].
  - rewrite (Hp (g d)) by (rewrite (proj1 (Hg d)); congruence).
    rewrite (Hp d) by congruence. exact IH.
  - rewrite (proj2 (Hg d) Hd). by rewrite IH.
Qed.

Lemma pending_ready_campaign cid t d :
  campaignId d <> cid -> pending_ready cid t d = false.
Proof. intros H. unfold pending_ready. destruct (campaignId d =? cid)%Z eqn:E; [lia|done]. Qed.

Lemma same_group_campaign cid first d :
  campaignId d <> cid -> same_group cid first d = false.
Proof. intros H. unfold same_group. destruct (campaignId d =? cid)%Z eqn:E; [lia|done]. Qed.

Lemma claim_engine_foreign c1 c2 g clk fault dir (s : Store) :
  c1 <> c2 -> only_campaign c2 g ->
  claimNextContactBatch c1 clk fault dir (List.map g s)
  = (List.map g (claimNextContactBatch c1 clk fault dir s).1,
     (claimNextContactBatch c1 clk fault dir s).2).
Proof.
  intros Hne Hg. unfold claimNextContactBatch. destruct fault as [e|]; [reflexivity|].
  unfold claim_tx, claim_find.
  rewrite (filter_foreign c1 c2 g _ s Hne Hg (pending_ready_campaign c1 (now clk))).
  destruct (first_by key_lt (List.filter (pending_ready c1 (now clk)) s))
    as [first|]; [|reflexivity].
  rewrite !claim_take_eq. cbv zeta.
  assert (claim_update c1 first (now clk) (updTime clk) (List.map g s)
          = ((claim_update c1 first (now clk) (updTime clk) s).1,
             List.map g (claim_update c1 first (now clk) (updTime clk) s).2)) as ->.
  { unfold claim_update, updateMany. cbn [fst snd]. f_equal.
    - rewrite (filter_foreign c1 c2 g _ s Hne Hg); [reflexivity|].
      intros d Hd. unfold claim_where. by rewrite same_group_campaign.
    - rewrite !List.map_map. apply map_ext. intros d.
      apply (only_campaign_commute c1 c2 _ g d Hne
               (claim_map_only_campaign c1 first (now clk) (updTime clk)) Hg). }
  cbn [fst snd].
  assert (claim_read c1 first (claimTime clk)
            (List.map g (claim_update c1 first (now clk) (updTime clk) s).2)
          = claim_read c1 first (claimTime clk)
              (claim_update c1 first (now clk) (updTime clk) s).2) as ->.
  { unfold claim_read, findMany_by_messageOrder.
    rewrite (filter_foreign c1 c2 g _ _ Hne Hg); [reflexivity|].
    intros d Hd. unfold batch_where. by rewrite same_group_campaign. }
  by destruct ((claim_update c1 first (now clk) (updTime clk) s).1 =? 0)%Z.
Qed.

Lemma claim_engine_is_map cid clk fault dir (s : Store) :
  exists g, only_campaign cid g
            /\ (claimNextContactBatch cid clk fault dir s).1 = List.map g s.
Proof.
  destruct (claim_store_shape cid clk fault dir s) as [->|[first ->]].
  - exists (fun d => d). split; [apply only_campaign_id|]. symmetry. apply map_id.
  - eexists. split; [apply (claim_map_only_campaign cid first (now clk) (updTime clk))|].
    reflexivity.
Qed.

(** X11. Claims for two different campaigns do not interfere: each resolves
    to the same result whether it runs before or after the other, and the
    table they leave is the same in both orders. *)
Theorem claims_of_different_campaigns_commute c1 c2 clk1 clk2 f1 f2 dir
    (s : Store) :
  c1 <> c2 ->
  let a := claimNextContactBatch c1 clk1 f1 dir s in
  let b := claimNextContactBatch c2 clk2 f2 dir s in
  (claimNextContactBatch c2 clk2 f2 dir a.1).2 = b.2
  /\ (claimNextContactBatch c1 clk1 f1 dir b.1).2 = a.2
  /\ (claimNextContactBatch c2 clk2 f2 dir a.1).1
     = (claimNextContactBatch c1 clk1 f1 dir b.1).1.
Proof.
  intros Hne. cbv zeta.
  destruct (claim_engine_is_map c1 clk1 f1 dir s) as (g1 & Hg1 & Ha).
  destruct (claim_engine_is_map c2 clk2 f2 dir s) as (g2 & Hg2 & Hb).
  pose proof (claim_engine_foreign c2 c1 g1 clk2 f2 dir s (not_eq_sym Hne) Hg1) as H21.
  pose proof (claim_engine_foreign c1 c2 g2 clk1 f1 dir s Hne Hg2) as H12.
  set (A := claimNextContactBatch c1 clk1 f1 dir s) in *.
  set (B := claimNextContactBatch c2 clk2 f2 dir s) in *.
  rewrite Ha, Hb, H21, H12. cbn [fst snd].
  split; [reflexivity|]. split; [reflexivity|].
  rewrite Ha, Hb, !List.map_map. apply map_ext. intros d.
  by apply (only_campaign_commute c1 c2 g1 g2 d).
Qed.

Lemma claims_of_different_campaigns_commute_witness :
  let s := [row 1 pending 0; row_of 2 7 1 pending None 0] in
  let a := claimNextContactBatch 1 (mkClock 100 101 102) None (fun _ => None) s in
  let b := claimNextContactBatch 7 (mkClock 200 201 202) None (fun _ => None) s in
  (claimNextContactBatch 7 (mkClock 200 201 202) None (fun _ => None) a.1).1
  = (claimNextContactBatch 1 (mkClock 100 101 102) None (fun _ => None) b.1).1.
Proof.
  intros s a b.
  apply (claims_of_different_campaigns_commute 1 7 (mkClock 100 101 102)
           (mkClock 200 201 202) None None (fun _ => None) s).
  lia.
Defined.

(** ** Sending, in general *)

Lemma same_message_refl r : same_message r r.
Proof. by repeat split. Qed.

Lemma same_message_trans a b c :
  same_message a b -> same_message b c -> same_message a c.
Proof. unfold same_message. intuition congruence. Qed.

Lemma same_message_settled v fs ff r : same_message (settle_row v fs ff r) r.
Proof. destruct v, fs, ff; by repeat split. Qed.

(** A row whose update to [failed] the store takes ends in a final state. *)
Lemma terminal_settled v fs r : terminal (settle_row v fs None r).
Proof. destruct v, fs; first [by left|by right]. Qed.

(** Whatever the store does, a settled row is in a final state or is the
    row it was. *)
Lemma settled_or_kept v fs ff r :
  terminal (settle_row v fs ff r) \/ settle_row v fs ff r = r.
Proof. destruct v, fs, ff; first [by left; left|by left; right|by right]. Qed.

Lemma update_absent fault i data (s : Store) :
  i ∉ List.map id s -> exists e, update fault i data s = Throw e.
Proof.
  intros Hi. unfold update. destruct fault as [e|]; [by eexists|].
  destruct (existsb (fun d => (id d =? i)%Z) s) eqn:E; [|by eexists].
  by apply existsb_id in E.
Qed.

(** A message whose row is not in the table leaves the table as it is. *)
Lemma send_dispatch_absent cfg number cd gw faults delayMs d (s : Store) :
  id d ∉ List.map id s ->
  (send_dispatch cfg number cd gw faults delayMs d s).1 = s.
Proof.
  intros Hi. unfold send_dispatch, try_send.
  destruct (update_absent (faults (id d) sent) (id d) mark_sent s Hi) as [e1 H1].
  assert (forall err, match update (faults (id d) failed) (id d) (mark_failed err) s with
                      | Return s' => s'
                      | Throw _ => s
                      end = s) as Hfail.
  { intros err.
    by destruct (update_absent (faults (id d) failed) (id d) (mark_failed err) s Hi)
      as [e2 ->]. }
  destruct (build_request cfg d number cd (parsePayload cfg (message d)))
    as [[url body]|e]; [|apply Hfail].
  destruct (gw (id d)) as [data|e]; [|apply Hfail].
  destruct (truthy (opt_get data "status")); [|apply Hfail].
  rewrite H1. apply Hfail.
Qed.

(** One turn of the batch loop rewrites the rows with the id of its message,
    keeping what they are, and no other row. *)
Lemma send_dispatch_rows cfg number cd gw faults delayMs d (s : Store) :
  let s' := (send_dispatch cfg number cd gw faults delayMs d s).1 in
  List.map id s' = List.map id s
  /\ forall i r, s !! i = Some r ->
       exists r', s' !! i = Some r' /\ same_message r' r
                  /\ (id r <> id d -> r' = r).
Proof.
  cbv zeta. destruct (decide (id d ∈ List.map id s)) as [Hin|Hout].
  - rewrite (send_dispatch_present _ _ _ _ _ _ _ _ Hin). cbn [fst]. split.
    + apply map_id_settled. intros r.
      destruct (id r =? id d)%Z; [apply settle_row_id|reflexivity].
    + intros i r Hr. rewrite lookup_map, Hr. simpl. eexists. split; [reflexivity|].
      destruct (id r =? id d)%Z eqn:E.
      * split; [apply same_message_settled|lia].
      * split; [apply same_message_refl|done].
  - rewrite (send_dispatch_absent _ _ _ _ _ _ _ _ Hout). split; [reflexivity|].
    intros i r Hr. exists r. split; [exact Hr|]. split; [apply same_message_refl|done].
Qed.

Lemma send_batch_rows cfg number cd gw faults delayMs (msgs : list Dispatch) :
  forall s : Store,
  let s' := (send_batch cfg number cd gw faults delayMs msgs s).1 in
  List.map id s' = List.map id s
  /\ forall i r, s !! i = Some r ->
       exists r', s' !! i = Some r' /\ same_message r' r
                  /\ (id r ∉ List.map id msgs -> r' = r).
Proof.
  induction msgs as [|d msgs IH]; intros s; cbv zeta.
  - simpl. split; [reflexivity|]. intros i r Hr. exists r.
    split; [exact Hr|]. split; [apply same_message_refl|done].
  - cbn [send_batch].
    destruct (send_dispatch_rows cfg number cd gw faults delayMs d s) as [Hids Hrows].
    destruct (send_dispatch cfg number cd gw faults delayMs d s) as [s1 ev1].
    destruct (IH s1) as [Hids' Hrows'].
    destruct (send_batch cfg number cd gw faults delayMs msgs s1) as [s2 ev2].
    cbn [fst] in *. split; [congruence|].
    intros i r Hr. destruct (Hrows i r Hr) as (r1 & Hr1 & Hsame1 & Hkeep1).
    destruct (Hrows' i r1 Hr1) as (r2 & Hr2 & Hsame2 & Hkeep2).
    exists r2. split; [exact Hr2|]. split; [by eapply same_message_trans|].
    intros Hnot. simpl in Hnot. apply not_elem_of_cons in Hnot as [Hne Hnot].
    rewrite <- (Hkeep1 Hne). apply Hkeep2.
    by rewrite (Hkeep1 Hne).
Qed.

(** X12. Sending a batch whose rows are in the table under pairwise
    different ids keeps each row of the table the message it was and
    changes no row outside the batch.  A row of the batch whose update to
    [failed] the store would take ends [sent] or [failed]; a row of the
    batch whose update to [failed] the store refuses ends [sent] or
    [failed] or is left exactly as it was; and a row whose updates the
    store refuses both is left exactly as it was: the failure of the
    second update is only logged. *)
Theorem send_batch_settles_its_rows cfg number cd gw faults delayMs
    (msgs : list Dispatch) (s : Store) :
  NoDup (List.map id msgs) ->
  (forall d, d ∈ msgs -> id d ∈ List.map id s) ->
  let s' := (send_batch cfg number cd gw faults delayMs msgs s).1 in
  List.length s' = List.length s
  /\ forall i r, s !! i = Some r ->
       exists r', s' !! i = Some r' /\ same_message r' r
                  /\ (id r ∈ List.map id msgs -> faults (id r) failed = None ->
                      terminal r')
                  /\ (id r ∈ List.map id msgs -> terminal r' \/ r' = r)
                  /\ (id r ∈ List.map id msgs ->
                      faults (id r) sent <> None -> faults (id r) failed <> None ->
                      r' = r)
                  /\ (id r ∉ List.map id msgs -> r' = r).
Proof.
  intros Hnd Hin. cbv zeta.
  destruct (send_batch_rows cfg number cd gw faults delayMs msgs s) as [Hids Hrows].
  split.
  - rewrite <- (length_map id), Hids. apply length_map.
  - intros i r Hr. destruct (Hrows i r Hr) as (r' & Hr' & Hsame & Hkeep).
    exists r'. split; [exact Hr'|]. split; [exact Hsame|].
    assert (id r ∈ List.map id msgs ->
            exists d, d ∈ msgs /\ id d = id r
              /\ r' = settle_row (send_verdict cfg number cd (gw (id d)) d)
                        (faults (id d) sent) (faults (id d) failed) r) as Hshape.
    { intros Hid. rewrite (send_batch_present _ _ _ _ _ _ _ Hnd s Hin) in Hr'.
      cbn [fst] in Hr'. rewrite lookup_map, Hr in Hr'. injection Hr' as <-.
      unfold row_after.
      destruct (List.find (fun d => (id d =? id r)%Z) msgs) as [d|] eqn:E.
      - exists d. apply find_some in E as [Hd Heq].
        split; [by apply list_elem_of_In|]. split; [lia|reflexivity].
      - exfalso. apply list_elem_of_In, in_map_iff in Hid as (d & Hd & Hdin).
        apply (find_none _ _ E) in Hdin. lia. }
    split; [|split; [|split; [|exact Hkeep]]].
    + intros Hid Hok. destruct (Hshape Hid) as (d & _ & Hd & ->).
      rewrite Hd, Hok. apply terminal_settled.
    + intros Hid. destruct (Hshape Hid) as (d & _ & Hd & ->). apply settled_or_kept.
    + intros Hid Hs Hf. destruct (Hshape Hid) as (d & _ & Hd & ->). rewrite Hd.
      destruct (faults (id r) sent); [|done].
      destruct (faults (id r) failed); [|done].
      unfold settle_row. by destruct (send_verdict cfg number cd (gw (id r)) d).
Qed.

Lemma send_batch_settles_its_rows_witness :
  let msgs := [row 1 processing 102; image_row processing 102] in
  let s := [row 3 pending 0; row 1 processing 102; image_row processing 102] in
  let s' := (send_batch sample_config "5511999999999" None sample_gateway
               no_fault 30000 msgs s).1 in
  s' !! 0%nat = Some (row 3 pending 0)
  /\ exists r', s' !! 1%nat = Some r' /\ terminal r'.
Proof.
  intros msgs s s'.
  destruct (send_batch_settles_its_rows sample_config "5511999999999" None
              sample_gateway no_fault 30000 msgs s) as [_ Hrows].
  - apply (bool_decide_unpack _). vm_compute. exact I.
  - intros d Hd. apply list_elem_of_In in Hd. simpl in Hd.
    destruct Hd as [<-|[<-|[]]]; apply (bool_decide_unpack _); vm_compute; exact I.
  - unfold s'. split.
    + destruct (Hrows 0%nat (row 3 pending 0) eq_refl)
        as (r' & Hr' & _ & _ & _ & _ & Hkeep).
      rewrite Hr'. f_equal. apply Hkeep.
      apply (bool_decide_unpack _). vm_compute. exact I.
    + destruct (Hrows 1%nat (row 1 processing 102) eq_refl)
        as (r' & Hr' & _ & Hterm & _).
      exists r'. split; [exact Hr'|]. apply Hterm; [|reflexivity].
      apply (bool_decide_unpack _). vm_compute. exact I.
Defined.

(** X13. A stored message that is not JSON and holds no opening brace is
    posted to [sendmessage] of its session, word for word, to the cleaned
    number. *)
Theorem plain_message_is_posted_verbatim cfg d number cd :
  JSON_parse cfg (message d) = None ->
  has_char "{" (message d) = false ->
  build_request cfg d number cd (parsePayload cfg (message d))
  = Return ((WHATSAPP_EXTERNAL_API cfg ++ "/" ++ sessionName d) ++ "/sendmessage",
            [("telnumber", JStr number); ("message", JStr (message d))]).
Proof.
  intros Hparse Hplain. unfold parsePayload. rewrite Hparse.
  unfold build_request.
  change (type_is (text_payload (message d)) "image") with false.
  change (type_is (text_payload (message d)) "video") with false.
  change (type_is (text_payload (message d)) "audio") with false.
  change (type_is (text_payload (message d)) "document") with false.
  change (opt_get (text_payload (message d)) "text") with (JStr (message d)).
  cbv iota. by rewrite (renderTemplate_plain _ _ Hplain).
Qed.

Lemma plain_message_is_posted_verbatim_witness :
  build_request sample_config (row 1 processing 102) "5511999999999" None
    (parsePayload sample_config (message (row 1 processing 102)))
  = Return ("http://localhost:3001/s1/sendmessage",
            [("telnumber", JStr "5511999999999"); ("message", JStr "hello")]).
Proof.
  by apply (plain_message_is_posted_verbatim sample_config
              (row 1 processing 102) "5511999999999" None).
Defined.

(** ** The campaign loop, in general *)

(** X14. Turns in which the campaign row cannot be read or the claim
    transaction fails neither end the loop nor touch the table nor post
    anything: each of them sleeps 5000 ms and the loop goes on. *)
Theorem faults_do_not_end_the_loop cfg cid (envs : list IterEnv) (s : Store) :
  Forall faulty_turn envs ->
  exists evs,
    campaign_loop cfg cid envs s = (s, evs, Running)
    /\ posts evs = []
    /\ sleeps evs = List.map (fun _ => 5000%Z) envs.
Proof.
  induction 1 as [|env envs Hturn _ (evs & IH & Hposts & Hsleeps)].
  - by exists [].
  - cbn [campaign_loop]. unfold iteration.
    destruct Hturn as [[e Hread]|(c & e & Hread & Hstatus & Hfault)].
    + rewrite Hread, IH. exists (EvSleep 5000 :: evs).
      split; [reflexivity|]. split; [exact Hposts|]. simpl. by rewrite Hsleeps.
    + rewrite Hread, Hstatus. unfold claimNextContactBatch. rewrite Hfault, IH.
      exists (EvClaim cid :: EvSleep 5000 :: evs).
      split; [reflexivity|]. split; [exact Hposts|]. simpl. by rewrite Hsleeps.
Qed.

Lemma faults_do_not_end_the_loop_witness :
  let down := mkIterEnv (Throw (Error "Can't reach database server"))
                (mkClock 100 101 102) None (fun _ => None) sample_gateway no_fault in
  let timeout := mkIterEnv (Return (Some (mkCampaign None None "active")))
                   (mkClock 100 101 102)
                   (Some (Error "Transaction already closed"))
                   (fun _ => None) sample_gateway no_fault in
  exists evs,
    campaign_loop sample_config 1 [down; timeout] [row 1 pending 0]
    = ([row 1 pending 0], evs, Running)
    /\ posts evs = []
    /\ sleeps evs = [5000; 5000]%Z.
Proof.
  intros down timeout.
  apply (faults_do_not_end_the_loop sample_config 1 [down; timeout]).
  apply Forall_cons. split; [left; by eexists|].
  apply Forall_cons. split; [right; by eexists _, _|]. constructor.
Defined.

Lemma NoDup_id_inj (l : Store) a b :
  NoDup (List.map id l) -> a ∈ l -> b ∈ l -> id a = id b -> a = b.
Proof.
  induction l as [|x l IH]; intros Hnd Ha Hb Hid; [by apply not_elem_of_nil in Ha|].
  simpl in Hnd. apply NoDup_cons in Hnd as [Hfresh Hnd].
  assert (forall y, y ∈ l -> id y ∈ List.map id l) as Hmem
    by (intros y Hy; apply list_elem_of_In, in_map, list_elem_of_In, Hy).
  apply elem_of_cons in Ha as [->|Ha]; apply elem_of_cons in Hb as [->|Hb].
  - reflexivity.
  - exfalso. apply Hfresh. rewrite Hid. by apply Hmem.
  - exfalso. apply Hfresh. rewrite <- Hid. by apply Hmem.
  - by apply IH.
Qed.

Lemma claim_update_rows cid first t stamp (s : Store) :
  let s' := (claim_update cid first t stamp s).2 in
  List.map id s' = List.map id s
  /\ forall i r, s !! i = Some r ->
       exists r', s' !! i = Some r' /\ same_message r' r
                  /\ (campaignId r <> cid \/ status r <> pending -> r' = r).
Proof.
  cbv zeta. unfold claim_update. split.
  - unfold updateMany. cbn [snd]. apply map_id_settled.
    intros r. by destruct (claim_where cid first t r).
  - intros i r Hr. rewrite updateMany_lookup, Hr. simpl. eexists.
    split; [reflexivity|].
    destruct (claim_where cid first t r) eqn:E.
    + split; [by repeat split|]. apply claim_where_campaign in E as [? ?]. tauto.
    + split; [apply same_message_refl|done].
Qed.

(** What a claim that resolved holds: the rows read back from the table it
    left, for some first row. *)
Lemma claim_result_shape cid clk fault dir (s s1 : Store) c :
  claimNextContactBatch cid clk fault dir s = (s1, Return (Some c)) ->
  exists first,
    claim_find cid (now clk) s = Some first
    /\ s1 = (claim_update cid first (now clk) (updTime clk) s).2
    /\ batch c = claim_read cid first (claimTime clk) s1.
Proof.
  unfold claimNextContactBatch. destruct fault as [e|]; [discriminate|].
  unfold claim_tx. destruct (claim_find cid (now clk) s) as [first|]; [|discriminate].
  rewrite claim_take_eq. cbv zeta.
  destruct ((claim_update cid first (now clk) (updTime clk) s).1 =? 0)%Z;
    [discriminate|].
  intros [= <- <-]. by exists first.
Qed.

Lemma batch_where_campaign cid first t d :
  batch_where cid first t d = true -> campaignId d = cid /\ status d = processing.
Proof.
  unfold batch_where, same_group, has_status. rewrite !andb_true_iff.
  intros [[[[Hc _] _] Hs] _]. apply bool_decide_eq_true in Hs. split; [lia|done].
Qed.

Lemma terminal_not_pending r : terminal r -> status r <> pending.
Proof. intros [H|H]; rewrite H; discriminate. Qed.

Lemma terminal_not_processing r : terminal r -> status r <> processing.
Proof. intros [H|H]; rewrite H; discriminate. Qed.

(** One turn of the loop keeps the rows of the table in place, each the
    message it was, and leaves the rows of other campaigns and the rows in
    a final state alone. *)
Lemma iteration_rows cfg cid env (s : Store) :
  NoDup (List.map id s) ->
  let s' := (iteration cfg cid env s).1.1 in
  List.map id s' = List.map id s
  /\ forall i r, s !! i = Some r ->
       exists r', s' !! i = Some r' /\ same_message r' r
                  /\ (campaignId r <> cid \/ terminal r -> r' = r).
Proof.
  intros Hnd. cbv zeta.
  assert (List.map id s = List.map id s
          /\ forall i r, s !! i = Some r ->
               exists r', s !! i = Some r' /\ same_message r' r
                          /\ (campaignId r <> cid \/ terminal r -> r' = r)) as Hsame.
  { split; [reflexivity|]. intros i r Hr. exists r.
    split; [exact Hr|]. split; [apply same_message_refl|done]. }
  assert (forall first,
            List.map id (claim_update cid first (now (clock env))
                           (updTime (clock env)) s).2 = List.map id s
            /\ forall i r, s !! i = Some r ->
                 exists r', (claim_update cid first (now (clock env))
                               (updTime (clock env)) s).2 !! i = Some r'
                            /\ same_message r' r
                            /\ (campaignId r <> cid \/ terminal r -> r' = r))
    as Hclaimed.
  { intros first.
    destruct (claim_update_rows cid first (now (clock env)) (updTime (clock env)) s)
      as [Hids Hrows].
    split; [exact Hids|]. intros i r Hr.
    destruct (Hrows i r Hr) as (r' & Hr' & Hsm & Hkeep).
    exists r'. split; [exact Hr'|]. split; [exact Hsm|].
    intros [H|H]; apply Hkeep; [by left|right; by apply terminal_not_pending]. }
  unfold iteration. destruct (findUnique env) as [[campaign|]|e]; [|exact Hsame..].
  destruct (String.eqb (campaign_status campaign) "paused"); [exact Hsame|].
  destruct (claimNextContactBatch cid (clock env) (tx_fault env) (directory env) s)
    as [s1 [[c|]|e]] eqn:Hclaim.
  - destruct (claim_result_shape _ _ _ _ _ _ _ Hclaim) as (first & _ & -> & Hbatch).
    destruct (Hclaimed first) as [Hids1 Hrows1].
    set (s1 := (claim_update cid first (now (clock env)) (updTime (clock env)) s).2) in *.
    destruct (batch c) as [|d0 rest] eqn:Hb; [by split|].
    rewrite <- Hb.
    destruct (send_batch_rows cfg (cleanNumber (claim_contact c)) (contactData c)
                (gateway env) (update_fault env) (delayMs_of campaign) (batch c) s1) as [Hids2 Hrows2].
    destruct (send_batch cfg (cleanNumber (claim_contact c)) (contactData c)
                (gateway env) (update_fault env) (delayMs_of campaign) (batch c) s1) as [s2 evs].
    cbn [fst] in *. split; [congruence|].
    intros i r Hr. destruct (Hrows1 i r Hr) as (r1 & Hr1 & Hsame1 & Hkeep1).
    destruct (Hrows2 i r1 Hr1) as (r2 & Hr2 & Hsame2 & Hkeep2).
    exists r2. split; [exact Hr2|]. split; [by eapply same_message_trans|].
    intros Hother. rewrite <- (Hkeep1 Hother). apply Hkeep2.
    intros Hid. apply list_elem_of_In, in_map_iff in Hid as (d & Hd & Hdin).
    apply list_elem_of_In in Hdin. rewrite Hb, Hbatch in Hdin.
    apply claim_read_elem in Hdin as [Hdin Hw].
    assert (d = r1) as ->.
    { apply (NoDup_id_inj s1); [by rewrite Hids1|exact Hdin| |exact Hd].
      apply list_elem_of_lookup. by exists i. }
    apply batch_where_campaign in Hw as [Hc Hp]. rewrite (Hkeep1 Hother) in Hc, Hp.
    destruct Hother as [H|H]; [done|]. by apply terminal_not_processing in H.
  - destruct (claim_store_shape cid (clock env) (tx_fault env) (directory env) s)
      as [H|[first H]]; rewrite Hclaim in H; cbn [fst] in *; subst s1;
      [exact Hsame|apply Hclaimed].
  - destruct (claim_store_shape cid (clock env) (tx_fault env) (directory env) s)
      as [H|[first H]]; rewrite Hclaim in H; cbn [fst] in *; subst s1;
      [exact Hsame|apply Hclaimed].
Qed.

Lemma campaign_loop_rows cfg cid (envs : list IterEnv) :
  forall s : Store,
  NoDup (List.map id s) ->
  let s' := (campaign_loop cfg cid envs s).1.1 in
  List.map id s' = List.map id s
  /\ forall i r, s !! i = Some r ->
       exists r', s' !! i = Some r' /\ same_message r' r
                  /\ (campaignId r <> cid \/ terminal r -> r' = r).
Proof.
  induction envs as [|env envs IH]; intros s Hnd; cbv zeta.
  - simpl. split; [reflexivity|]. intros i r Hr. exists r.
    split; [exact Hr|]. split; [apply same_message_refl|done].
  - cbn [campaign_loop].
    destruct (iteration_rows cfg cid env s Hnd) as [Hids1 Hrows1].
    destruct (iteration cfg cid env s) as [[s1 ev1] o]. cbn [fst] in *.
    destruct o; [by split|].
    destruct (IH s1) as [Hids2 Hrows2]; [by rewrite Hids1|].
    destruct (campaign_loop cfg cid envs s1) as [[s2 ev2] st]. cbn [fst] in *.
    split; [congruence|].
    intros i r Hr. destruct (Hrows1 i r Hr) as (r1 & Hr1 & Hsame1 & Hkeep1).
    destruct (Hrows2 i r1 Hr1) as (r2 & Hr2 & Hsame2 & Hkeep2).
    exists r2. split; [exact Hr2|]. split; [by eapply same_message_trans|].
    intros Hother. rewrite <- (Hkeep1 Hother). apply Hkeep2.
    by rewrite (Hkeep1 Hother).
Qed.

(** X15. However long a campaign loop runs on a table with pairwise
    different ids, it adds and removes no row, every row stays the message
    it was, and the rows of every other campaign are exactly as they
    were. *)
Theorem campaign_loop_keeps_to_its_campaign cfg cid (envs : list IterEnv)
    (s : Store) :
  NoDup (List.map id s) ->
  let s' := (campaign_loop cfg cid envs s).1.1 in
  List.map id s' = List.map id s
  /\ forall i r, s !! i = Some r ->
       exists r', s' !! i = Some r' /\ same_message r' r
                  /\ (campaignId r <> cid -> r' = r).
Proof.
  intros Hnd. cbv zeta.
  destruct (campaign_loop_rows cfg cid envs s Hnd) as [Hids Hrows].
  split; [exact Hids|]. intros i r Hr.
  destruct (Hrows i r Hr) as (r' & Hr' & Hsm & Hkeep).
  exists r'. split; [exact Hr'|]. split; [exact Hsm|]. intros H. apply Hkeep. by left.
Qed.

Lemma campaign_loop_keeps_to_its_campaign_witness :
  let env := mkIterEnv (Return (Some (mkCampaign None None "active")))
               (mkClock 100 101 102) None (fun _ => None) sample_gateway no_fault in
  let s := [row 1 pending 0; row_of 2 7 1 pending None 0] in
  exists r', (campaign_loop sample_config 1 [env; env] s).1.1 !! 1%nat = Some r'
             /\ same_message r' (row_of 2 7 1 pending None 0)
             /\ r' = row_of 2 7 1 pending None 0.
Proof.
  intros env s.
  destruct (campaign_loop_keeps_to_its_campaign sample_config 1 [env; env] s)
    as [_ Hrows].
  - apply (bool_decide_unpack _). vm_compute. exact I.
  - destruct (Hrows 1%nat (row_of 2 7 1 pending None 0) eq_refl)
      as (r' & Hr' & Hsame & Hkeep).
    exists r'. split; [exact Hr'|]. split; [exact Hsame|]. apply Hkeep. simpl. lia.
Defined.

(** ** The orchestrator, in general *)

(** X16. A tick discovers exactly the campaigns that have a [pending] row
    due at the time of the tick, each of them once. *)
Theorem discover_exactly_the_ready_campaigns t (s : Store) :
  NoDup (discover t s)
  /\ forall c, c ∈ discover t s
       <-> exists d, d ∈ s /\ campaignId d = c
                     /\ status d = pending
                     /\ (scheduledAt d = None
                         \/ exists at_, scheduledAt d = Some at_ /\ (at_ <= t)%Z).
Proof.
  split; [apply NoDup_distinct|]. intros c. rewrite elem_of_discover.
  split; intros (d & Hd & Hc & H).
  - exists d. split; [exact Hd|]. split; [exact Hc|]. destruct H as [Hp Hr].
    split; [by apply bool_decide_eq_true in Hp|].
    unfold ready in Hr. destruct (scheduledAt d) as [at_|]; [|by left].
    right. exists at_. split; [reflexivity|lia].
  - exists d. split; [exact Hd|]. split; [exact Hc|]. destruct H as [Hp Hr].
    split; [by apply bool_decide_eq_true|].
    unfold ready. destruct Hr as [->|(at_ & -> & Hle)]; [reflexivity|lia].
Qed.

Lemma launch_sublist (max : Z) (available : list Z) :
  forall running : gset Z,
  (launch max available running).2 `sublist_of` available.
Proof.
  induction available as [|cid rest IH]; intros running; [constructor|].
  cbn [launch]. destruct (bool_decide (cid ∈ running)).
  - constructor. apply IH.
  - destruct ((0 <? max)%Z && (max <=? Z.of_nat (size running))%Z).
    + apply sublist_nil_l.
    + specialize (IH ({[cid]} ∪ running)).
      destruct (launch max rest ({[cid]} ∪ running)) as [running' launched].
      by constructor.
Qed.

(** X17. Whatever the ceiling, a tick launches campaigns in the order it
    discovered them, only campaigns that have a [pending] row due, and none
    that was running; it takes nothing out of the RunningSet and changes the
    table only through the reviver; and when the discovery fails it
    launches nothing. *)
Theorem tick_launches_only_ready_campaigns cfg env (s : Store) (running : gset Z) :
  let s1 := fst (fst (orchestrate cfg env s running)) in
  let running' := snd (fst (orchestrate cfg env s running)) in
  let launched := snd (orchestrate cfg env s running) in
  s1 = (reviveStuckProcessing (PROCESSING_TTL_MS cfg) (revive_now env)
          (revive_fault env) s).1
  /\ launched `sublist_of` discover (tick_now env) s1
  /\ (forall c, c ∈ launched ->
        (c ∉ running)
        /\ exists d, d ∈ s1 /\ campaignId d = c
                     /\ has_status pending d = true
                     /\ ready (tick_now env) d = true)
  /\ running ⊆ running'
  /\ (forall e, discover_fault env = Some e -> launched = [] /\ running' = running).
Proof.
  cbv zeta. unfold orchestrate.
  destruct (reviveStuckProcessing (PROCESSING_TTL_MS cfg) (revive_now env)
              (revive_fault env) s) as [s1 r].
  destruct (discover_fault env) as [e|].
  - cbn [fst snd]. split; [reflexivity|]. split; [apply sublist_nil_l|].
    split; [intros c Hc; by apply not_elem_of_nil in Hc|]. by split.
  - pose proof (launch_spec (MAX_CAMPAIGN_CONCURRENCY cfg)
                  (discover (tick_now env) s1) running) as (H1 & H2 & _).
    pose proof (launch_sublist (MAX_CAMPAIGN_CONCURRENCY cfg)
                  (discover (tick_now env) s1) running) as Hsub.
    destruct (launch (MAX_CAMPAIGN_CONCURRENCY cfg) (discover (tick_now env) s1)
                running) as [running' launched].
    cbn [fst snd] in *. split; [reflexivity|]. split; [exact Hsub|].
    split; [|split; [set_solver|done]].
    intros c Hc. destruct (H2 c Hc) as [Hnot Hdisc]. split; [exact Hnot|].
    by apply elem_of_discover.
Qed.

(** X18. With no ceiling (a ceiling of 0 or less), every campaign a tick
    discovers is in the RunningSet after the tick. *)
Theorem unlimited_tick_launches_everything cfg env (s : Store) (running : gset Z) :
  (MAX_CAMPAIGN_CONCURRENCY cfg <= 0)%Z ->
  discover_fault env = None ->
  let s1 := fst (fst (orchestrate cfg env s running)) in
  let running' := snd (fst (orchestrate cfg env s running)) in
  running' = running ∪ list_to_set (discover (tick_now env) s1).
Proof.
  intros Hmax Hfault. cbv zeta. unfold orchestrate.
  destruct (reviveStuckProcessing (PROCESSING_TTL_MS cfg) (revive_now env)
              (revive_fault env) s) as [s1 r].
  rewrite Hfault.
  assert (forall available (running : gset Z),
            (launch (MAX_CAMPAIGN_CONCURRENCY cfg) available running).1
            = running ∪ list_to_set available) as Hall.
  { induction available as [|cid rest IH]; intros rs; [set_solver|].
    cbn [launch]. destruct (bool_decide (cid ∈ rs)) eqn:Hin.
    - apply bool_decide_eq_true in Hin. rewrite IH. set_solver.
    - assert ((0 <? MAX_CAMPAIGN_CONCURRENCY cfg)%Z = false) as -> by lia.
      cbn [andb]. specialize (IH ({[cid]} ∪ rs)).
      destruct (launch (MAX_CAMPAIGN_CONCURRENCY cfg) rest ({[cid]} ∪ rs))
        as [running' launched].
      cbn [fst] in *. rewrite IH. set_solver. }
  specialize (Hall (discover (tick_now env) s1) running).
  destruct (launch (MAX_CAMPAIGN_CONCURRENCY cfg) (discover (tick_now env) s1)
              running) as [running' launched].
  exact Hall.
Qed.

Lemma unlimited_tick_launches_everything_witness :
  let cfg := mkConfig "http://localhost:3001" 0 1800000 (fun _ => None) in
  let env := mkTickEnv 5000 None 5000 None in
  let s := [row_of 1 1 1 pending None 0; row_of 2 2 1 pending None 0] in
  snd (fst (orchestrate cfg env s ∅))
  = ∅ ∪ list_to_set (discover 5000 (fst (fst (orchestrate cfg env s ∅)))).
Proof.
  intros cfg env s.
  apply (unlimited_tick_launches_everything cfg env s ∅); [simpl; lia|reflexivity].
Defined.

(** ** The gateway's phone numbers *)






(** ** The lifecycle of a row *)



Lemma claim_read_ids_NoDup cid first t (s : Store) :
  NoDup (List.map id s) -> NoDup (List.map id (claim_read cid first t s)).
Proof.
  intros Hnd. unfold claim_read, findMany_by_messageOrder.
  change (List.map id ?l) with (id <$> l) in *.
  rewrite merge_sort_Permutation.
  eapply sublist_NoDup; [exact Hnd|]. apply fmap_sublist, filter_sublist_all.
Qed.

Lemma claim_find_Some cid t (s : Store) first :
  claim_find cid t s = Some first ->
  first ∈ s /\ pending_ready cid t first = true.
Proof.
  unfold claim_find. intros Hfind.
  destruct (first_by_least (List.filter (pending_ready cid t) s))
    as (m & Hm & Hmin & _).
  { intros Hnil. rewrite Hnil in Hfind. discriminate. }
  rewrite Hfind in Hm. injection Hm as <-.
  by apply elem_of_filter_bool in Hmin.
Qed.

(** ** The turn that sends a batch *)

(** A turn whose claim resolved to a batch sends the batch, paces, and goes
    on to the next turn. *)
Lemma iteration_claimed_batch cfg cid env campaign claim (s0 s1 : Store) :
  findUnique env = Return (Some campaign) ->
  String.eqb (campaign_status campaign) "paused" = false ->
  claimNextContactBatch cid (clock env) (tx_fault env) (directory env) s0
  = (s1, Return (Some claim)) ->
  batch claim <> [] ->
  iteration cfg cid env s0
  = ((send_batch cfg (cleanNumber (claim_contact claim)) (contactData claim)
        (gateway env) (update_fault env) (delayMs_of campaign) (batch claim) s1).1,
     (EvClaim cid
      :: flat_map (fun d =>
           (List.map (fun r => EvPost r.1 r.2)
              (requests_of cfg (cleanNumber (claim_contact claim))
                 (contactData claim) d)
            ++ (if (0 <? delayMs_of campaign)%Z
                then [EvSleep (delayMs_of campaign)] else []))%list) (batch claim)
      ++ (if (0 <? contactDelayMs_of campaign)%Z
          then [EvSleep (contactDelayMs_of campaign)] else []))%list,
     Continue).
Proof.
  intros Hrow Hstatus Hclaim Hbatch. unfold iteration. rewrite Hrow, Hstatus, Hclaim.
  destruct (batch claim) as [|d0 rest] eqn:E; [done|].
  pose proof (send_batch_trace cfg (cleanNumber (claim_contact claim))
                (contactData claim) (gateway env) (update_fault env)
                (delayMs_of campaign) (d0 :: rest) s1) as Htrace.
  destruct (send_batch cfg (cleanNumber (claim_contact claim))
              (contactData claim) (gateway env) (update_fault env)
              (delayMs_of campaign) (d0 :: rest) s1) as [s2 evs].
  cbn [fst snd] in *. by rewrite Htrace.
Qed.

(** The batch of a claim on a table with pairwise different ids: its rows
    are rows of the table the claim leaves, under pairwise different ids. *)
Lemma claimed_batch_in_table cid clk fault dir (s0 s1 : Store) claim :
  NoDup (List.map id s0) ->
  claimNextContactBatch cid clk fault dir s0 = (s1, Return (Some claim)) ->
  List.map id s1 = List.map id s0
  /\ NoDup (List.map id (batch claim))
  /\ forall d, d ∈ batch claim -> d ∈ s1.
Proof.
  intros Hnd Hclaim.
  destruct (claim_result_shape _ _ _ _ _ _ _ Hclaim) as (first & _ & Hs1 & Hb).
  assert (List.map id s1 = List.map id s0) as Hids
    by (rewrite Hs1; apply claim_update_rows).
  split; [exact Hids|]. rewrite Hb. split.
  - apply claim_read_ids_NoDup. by rewrite Hids.
  - intros d Hd. by apply claim_read_elem in Hd as [Hd _].
Qed.

(** The row of a message of the batch, after the batch. *)
Lemma sent_batch_row cfg number cd gw faults delayMs (msgs : list Dispatch)
    (s : Store) i d :
  NoDup (List.map id msgs) ->
  (forall d, d ∈ msgs -> d ∈ s) ->
  s !! i = Some d -> d ∈ msgs ->
  (send_batch cfg number cd gw faults delayMs msgs s).1 !! i
  = Some (settle_row (send_verdict cfg number cd (gw (id d)) d)
            (faults (id d) sent) (faults (id d) failed) d).
Proof.
  intros Hnd Hin Hi Hd. rewrite (send_batch_present _ _ _ _ _ _ _ Hnd s).
  - cbn [fst]. rewrite lookup_map, Hi. simpl. unfold row_after.
    by rewrite (find_id_Some msgs d Hnd Hd).
  - intros d' Hd'. apply list_elem_of_In, in_map, list_elem_of_In, Hin, Hd'.
Qed.




(** The scenario of the specification, run: the text message is accepted,
    the image is refused, and the turn goes on. *)
Example scenario_two_messages :
  let env := mkIterEnv (Return (Some (mkCampaign None None "active")))
               (mkClock 100 101 102) None (fun _ => None) sample_gateway no_fault in
  iteration sample_config 1 env [row 1 pending 0; image_row pending 0]
  = ([mark_sent (row 1 processing 102);
      mark_failed (Error "no session") (image_row processing 102)],
     [EvClaim 1;
      EvPost "http://localhost:3001/s1/sendmessage"
        [("telnumber", JStr "5511999999999"); ("message", JStr "hello")];
      EvSleep 30000;
      EvPost "http://localhost:3001/s1/sendimage"
        [("telnumber", JStr "5511999999999");
         ("imagePath", JStr "http://cdn/a/pic.jpg?v=2");
         ("filename", JStr "pic.jpg");
         ("caption", JStr "")];
      EvSleep 30000],
     Continue).
Proof. vm_compute. reflexivity. Qed.

(** A store that refuses every update leaves the claimed rows [processing],
    whatever the gateway answered; the requests are made all the same. *)
Example scenario_store_refuses_updates :
  let down := fun (_ : Z) (_ : DispatchStatus) => Some (Error "Can't reach database server") in
  let env := mkIterEnv (Return (Some (mkCampaign None None "active")))
               (mkClock 100 101 102) None (fun _ => None) sample_gateway down in
  let out := iteration sample_config 1 env [row 1 pending 0; image_row pending 0] in
  out.1.1 = [row 1 processing 102; image_row processing 102]
  /\ List.length (posts out.1.2) = 2%nat
  /\ out.2 = Continue.
Proof. vm_compute. by repeat split. Qed.

(** A payload of type text whose [text] is a number: [renderTemplate]
    raises before any POST, and the row is [failed] with that error. *)
Example scenario_error_before_post :
  let cfg := mkConfig "http://localhost:3001" 1 1800000
               (fun _ => Some (JObj [("type", JStr "text");
                                     ("text", JNum (mkNumber true "5"))])) in
  let env := mkIterEnv (Return (Some (mkCampaign None None "active")))
               (mkClock 100 101 102) None (fun _ => None) sample_gateway no_fault in
  iteration cfg 1 env [row 1 pending 0]
  = ([mark_failed (TypeError "text.replace is not a function")
        (row 1 processing 102)],
     [EvClaim 1; EvSleep 30000],
     Continue).
Proof. vm_compute. reflexivity. Qed.

(** X21. A turn of the loop that claims a batch finishes what it took: on a
    table with pairwise different ids, with the two clock reads of the claim
    in order, the loop goes on to the next turn, and every row the
    conditional update took is, when the turn ends, the same message still,
    [sent] or [failed] when the store takes the update of that row to
    [failed], and otherwise [sent], [failed] or the [processing] row the
    claim made of it. *)
Theorem turn_settles_what_it_claims cfg cid env campaign first (s : Store) :
  NoDup (List.map id s) ->
  findUnique env = Return (Some campaign) ->
  String.eqb (campaign_status campaign) "paused" = false ->
  tx_fault env = None ->
  (claimTime (clock env) <= updTime (clock env))%Z ->
  claim_find cid (now (clock env)) s = Some first ->
  (iteration cfg cid env s).2 = Continue
  /\ forall i d, s !! i = Some d ->
       claim_where cid first (now (clock env)) d = true ->
       exists r', (iteration cfg cid env s).1.1 !! i = Some r'
                  /\ same_message r' d
                  /\ (update_fault env (id d) failed = None -> terminal r')
                  /\ (terminal r' \/ r' = claimed (updTime (clock env)) d).
Proof.
  intros Hnd Hrow Hstatus Hfault Hclock Hfind.
  destruct (claim_find_Some _ _ _ _ Hfind) as [Hin Hp].
  destruct (claim_ready_is_some cid (clock env) (directory env) s)
    as (first' & Hfind' & Hclaim); [by exists first|].
  rewrite Hfind in Hfind'. injection Hfind' as <-. rewrite <- Hfault in Hclaim.
  set (s1 := (claim_update cid first (now (clock env)) (updTime (clock env)) s).2) in *.
  set (msgs := claim_read cid first (claimTime (clock env)) s1) in *.
  assert (forall d, d ∈ s -> claim_where cid first (now (clock env)) d = true ->
            claimed (updTime (clock env)) d ∈ msgs) as Htaken.
  { intros d Hd Hw. apply claim_read_elem. split.
    - pose proof (claim_update_elem cid first (now (clock env))
                    (updTime (clock env)) s d Hd) as H.
      by rewrite Hw in H.
    - unfold batch_where. rewrite same_group_claimed.
      unfold claim_where in Hw. apply andb_true_iff in Hw as [Hw _].
      apply andb_true_iff in Hw as [-> _]. simpl. lia. }
  destruct (claimed_batch_in_table _ _ _ _ _ _ _ Hnd Hclaim) as (_ & Hmsgs & Hpresent).
  cbn [batch] in Hmsgs, Hpresent.
  rewrite (iteration_claimed_batch _ _ _ _ _ _ _ Hrow Hstatus Hclaim).
  2:{ cbn [batch]. intros Hnil. eapply not_elem_of_nil. rewrite <- Hnil.
      apply (Htaken first Hin). by apply pending_ready_claim_where. }
  cbn [fst snd batch claim_contact contactData].
  split; [reflexivity|]. intros i d Hd Hw.
  assert (s1 !! i = Some (claimed (updTime (clock env)) d)) as H1.
  { unfold s1, claim_update. rewrite updateMany_lookup, Hd. simpl. by rewrite Hw. }
  eexists. split.
  { apply (sent_batch_row _ _ _ _ _ _ msgs s1 i _ Hmsgs Hpresent H1).
    apply Htaken; [by apply list_elem_of_lookup; exists i|exact Hw]. }
  split; [|split].
  - eapply same_message_trans; [apply same_message_settled|by repeat split].
  - change (id (claimed (updTime (clock env)) d)) with (id d).
    intros ->. apply terminal_settled.
  - apply settled_or_kept.
Qed.

Lemma turn_settles_what_it_claims_witness :
  let env := mkIterEnv (Return (Some (mkCampaign None None "active")))
               (mkClock 100 101 102) None (fun _ => None) sample_gateway no_fault in
  let s := [row 1 pending 0; image_row pending 0] in
  exists r', (iteration sample_config 1 env s).1.1 !! 1%nat = Some r'
             /\ terminal r' /\ same_message r' (image_row pending 0).
Proof.
  intros env s.
  destruct (turn_settles_what_it_claims sample_config 1 env
              (mkCampaign None None "active") (row 1 pending 0) s)
    as [_ Hrows]; try reflexivity.
  - apply (bool_decide_unpack _). vm_compute. exact I.
  - simpl. lia.
  - destruct (Hrows 1%nat (image_row pending 0) eq_refl eq_refl)
      as (r' & Hr' & Hsame & Hterm & _).
    exists r'. split; [exact Hr'|]. split; [by apply Hterm|exact Hsame].
Defined.

Lemma discover_exactly_the_ready_campaigns_witness :
  2%Z ∈ discover 5000 [row 1 sent 0; row_of 2 2 1 pending (Some 4000%Z) 0].
Proof.
  apply (proj2 (discover_exactly_the_ready_campaigns 5000
                  [row 1 sent 0; row_of 2 2 1 pending (Some 4000%Z) 0])).
  exists (row_of 2 2 1 pending (Some 4000%Z) 0).
  split; [right; left|]. split; [reflexivity|]. split; [reflexivity|].
  right. exists 4000%Z. split; [reflexivity|lia].
Defined.

Lemma tick_launches_only_ready_campaigns_witness :
  let env := mkTickEnv 5000 None 5000 (Some (Error "Can't reach database server")) in
  let s := [row_of 1 1 1 pending None 0] in
  snd (orchestrate sample_config env s {[7%Z]}) = []
  /\ snd (fst (orchestrate sample_config env s {[7%Z]})) = {[7%Z]}.
Proof.
  intros env s.
  destruct (tick_launches_only_ready_campaigns sample_config env s {[7%Z]})
    as (_ & _ & _ & _ & Hfault).
  exact (Hfault _ eq_refl).
Defined.

(** ** What a claim hands out *)

Lemma filter_map_taken (cw bw : Dispatch -> bool) (f : Dispatch -> Dispatch)
    (s : Store) :
  (forall d, d ∈ s -> cw d = true -> bw (f d) = true) ->
  (forall d, d ∈ s -> cw d = false -> bw d = false) ->
  List.filter bw (List.map (fun d => if cw d then f d else d) s)
  = List.map f (List.filter cw s).
Proof.
  induction s as [|d s IH]; intros Htrue Hfalse; [reflexivity|]. simpl.
  assert (List.filter bw (List.map (fun d => if cw d then f d else d) s)
          = List.map f (List.filter cw s)) as Hrest.
  { apply IH; intros x Hx Hc; [apply Htrue|apply Hfalse]; (by right) || done. }
  assert (d ∈ d :: s) as Hd by (by left).
  destruct (cw d) eqn:E.
  - rewrite (Htrue d Hd E). simpl. by rewrite Hrest.
  - rewrite (Hfalse d Hd E). exact Hrest.
Qed.

(** X22. The rows a claim reads back are exactly the rows its update took,
    as many as the update counted, when the two clock reads of the claim are
    in order and no [processing] row of the table carries an [updatedAt] at
    or after the claim's [claimTime]. *)
Theorem claim_batch_is_what_was_taken cid clk fault dir (s s1 : Store) c :
  (claimTime clk <= updTime clk)%Z ->
  (forall d, d ∈ s -> status d = processing -> (updatedAt d < claimTime clk)%Z) ->
  claimNextContactBatch cid clk fault dir s = (s1, Return (Some c)) ->
  exists first,
    claim_find cid (now clk) s = Some first
    /\ batch c ≡ₚ List.map (claimed (updTime clk))
                   (List.filter (claim_where cid first (now clk)) s)
    /\ Z.of_nat (List.length (batch c))
       = (claim_update cid first (now clk) (updTime clk) s).1.
Proof.
  intros Hclock Hpast Hclaim.
  destruct (claim_result_shape _ _ _ _ _ _ _ Hclaim) as (first & Hfind & -> & Hbatch).
  exists first. split; [exact Hfind|].
  assert (List.filter (batch_where cid first (claimTime clk))
            (claim_update cid first (now clk) (updTime clk) s).2
          = List.map (claimed (updTime clk))
              (List.filter (claim_where cid first (now clk)) s)) as Hexact.
  { unfold claim_update, updateMany. cbn [snd]. apply filter_map_taken.
    - intros d Hd Hw. unfold batch_where.
      change (same_group cid first (set_updatedAt (updTime clk) (set_status processing d)))
        with (same_group cid first d).
      unfold claim_where in Hw. apply andb_true_iff in Hw as [Hw _].
      apply andb_true_iff in Hw as [-> _]. simpl. lia.
    - intros d Hd Hw. destruct (batch_where cid first (claimTime clk) d) eqn:E;
        [|reflexivity].
      unfold batch_where, has_status in E. rewrite !andb_true_iff in E.
      destruct E as [[_ Hp] Ht]. apply bool_decide_eq_true in Hp.
      specialize (Hpast d Hd Hp). lia. }
  split.
  - rewrite Hbatch. unfold claim_read, findMany_by_messageOrder.
    by rewrite merge_sort_Permutation, Hexact.
  - rewrite Hbatch. unfold claim_read, findMany_by_messageOrder.
    rewrite (Permutation_length (merge_sort_Permutation order_le _)), Hexact.
    rewrite length_map. reflexivity.
Qed.

Lemma claim_batch_is_what_was_taken_witness :
  let s := [row 1 pending 0; row 2 pending 0; row 3 processing 50] in
  let clk := mkClock 100 101 102 in
  exists first,
    claim_find 1 (now clk) s = Some first
    /\ [row 1 processing 102; row 2 processing 102]
       ≡ₚ List.map (claimed (updTime clk))
            (List.filter (claim_where 1 first (now clk)) s).
Proof.
  intros s clk.
  destruct (claim_batch_is_what_was_taken 1 clk None (fun _ => None) s
              [row 1 processing 102; row 2 processing 102; row 3 processing 50]
              (mkClaim "5511999999999" "s1" None
                 [row 1 processing 102; row 2 processing 102]))
    as (first & Hfind & Hbatch & _).
  - simpl. lia.
  - intros d Hd Hp. apply list_elem_of_In in Hd. simpl in Hd.
    destruct Hd as [<-|[<-|[<-|[]]]]; try discriminate. simpl. lia.
  - vm_compute. reflexivity.
  - by exists first.
Defined.

(** X23. Two claims that run one after the other hand out no row twice: on
    a table with pairwise different ids in which no [processing] row carries
    an [updatedAt] at or after the first claim's [claimTime], and with the
    second claim's [claimTime] read after the first claim stamped its rows,
    no row of the first batch has the id of a row of the second. *)
Theorem successive_claims_share_no_row cidA cidB clkA clkB fA fB dir
    (s sA sB : Store) cA cB :
  NoDup (List.map id s) ->
  (forall d, d ∈ s -> status d = processing -> (updatedAt d < claimTime clkA)%Z) ->
  (updTime clkA < claimTime clkB)%Z ->
  claimNextContactBatch cidA clkA fA dir s = (sA, Return (Some cA)) ->
  claimNextContactBatch cidB clkB fB dir sA = (sB, Return (Some cB)) ->
  forall a b, a ∈ batch cA -> b ∈ batch cB -> id a <> id b.
Proof.
  intros Hnd Hpast Hclock HA HB a b Ha Hb Hid.
  destruct (claim_result_shape _ _ _ _ _ _ _ HA) as (firstA & _ & -> & HbatchA).
  destruct (claim_result_shape _ _ _ _ _ _ _ HB) as (firstB & _ & -> & HbatchB).
  set (sA := (claim_update cidA firstA (now clkA) (updTime clkA) s).2) in *.
  assert (List.map id sA = List.map id s) as HidsA
    by apply (proj1 (claim_update_rows cidA firstA (now clkA) (updTime clkA) s)).
  rewrite HbatchA in Ha. rewrite HbatchB in Hb.
  apply claim_read_elem in Ha as [HaA Hwa]. apply claim_read_elem in Hb as [HbB Hwb].
  assert (status a = processing /\ updatedAt a = updTime clkA) as [Hsa Hua].
  { unfold sA, claim_update, updateMany in HaA. cbn [snd] in HaA.
    apply list_elem_of_In, in_map_iff in HaA as (d & Hd & Hdin).
    apply list_elem_of_In in Hdin.
    destruct (claim_where cidA firstA (now clkA) d); [by subst a|].
    subst d. unfold batch_where, has_status in Hwa. rewrite !andb_true_iff in Hwa.
    destruct Hwa as [[_ Hp] Ht]. apply bool_decide_eq_true in Hp.
    specialize (Hpast a Hdin Hp). lia. }
  unfold claim_update, updateMany in HbB. cbn [snd] in HbB.
  apply list_elem_of_In, in_map_iff in HbB as (a' & Hb' & Ha'in).
  apply list_elem_of_In in Ha'in.
  assert (id b = id a') as Hid'
    by (subst b; by destruct (claim_where cidB firstB (now clkB) a')).
  assert (a' = a) as ->
    by (apply (NoDup_id_inj sA); [by rewrite HidsA|done|done|congruence]).
  assert (claim_where cidB firstB (now clkB) a = false) as Hnot.
  { unfold claim_where, has_status. rewrite Hsa.
    rewrite bool_decide_eq_false_2 by discriminate. by rewrite andb_false_r. }
  rewrite Hnot in Hb'. subst b.
  unfold batch_where in Hwb. rewrite !andb_true_iff in Hwb.
  destruct Hwb as [_ Ht]. lia.
Qed.

Lemma successive_claims_share_no_row_witness :
  let s := [row_of 1 1 1 pending None 0; row_of 2 1 2 pending (Some 10%Z) 0] in
  let sA := [row_of 1 1 1 processing None 7; row_of 2 1 2 pending (Some 10%Z) 0] in
  let sB := [row_of 1 1 1 processing None 7; row_of 2 1 2 processing (Some 10%Z) 17] in
  id (row_of 1 1 1 processing None 7) <> id (row_of 2 1 2 processing (Some 10%Z) 17).
Proof.
  intros s sA sB.
  apply (successive_claims_share_no_row 1 1 (mkClock 5 6 7) (mkClock 15 16 17)
           None None (fun _ => None) s sA sB
           (mkClaim "5511999999999" "s1" None [row_of 1 1 1 processing None 7])
           (mkClaim "5511999999999" "s1" None
              [row_of 2 1 2 processing (Some 10%Z) 17])).
  - apply (bool_decide_unpack _). vm_compute. exact I.
  - intros d Hd Hp. apply list_elem_of_In in Hd. simpl in Hd.
    destruct Hd as [<-|[<-|[]]]; discriminate.
  - simpl. lia.
  - vm_compute. reflexivity.
  - vm_compute. reflexivity.
  - by left.
  - by left.
Defined.
